(** * Adaptive context assembly and caching pipeline: a shallow embedding

    The development follows four server-side classes of the repository:

    - [SmartContentProcessor] (server/smart-content-processor.js),
    - [ContentCache] (content-cache.js),
    - [AdaptiveRateLimiter] (adaptive-rate-limiter.js),
    - [SystemPromptManager] (server/system-prompt-manager.js).

    Modelling conventions.

    - A JavaScript string is a Rocq [string]; each character stands for one
      code unit in the range 0..255.  Lengths and indices are [Z], since the
      source passes negative indices to [slice].
    - Integer valued numbers (counters, timestamps in milliseconds, lengths)
      are [Z] or [N]; fractional numbers (relevance scores, success rates,
      the health average) are exact rationals [Q].  Rounding of IEEE doubles
      is not modelled.
    - [Date.now()] is an explicit argument of every operation that reads the
      clock; the file system is an explicit component of the cache state and a
      failing write is an explicit input.
    - Objects that the source mutates in place are threaded through as state
      records. *)

From Stdlib Require Import ZArith NArith QArith Qminmax Qround List Sorted String Ascii Bool Lia Lqa.
From stdpp Require Import base option list gmap strings.
Import ListNotations.

Local Open Scope Z_scope.

(** ** JavaScript strings *)

Module JsString.

Definition nl : string := String (ascii_of_nat 10) EmptyString.

Definition jsLength (s : string) : Z := Z.of_nat (String.length s).

(** The comparison [x < y] of two numbers. *)
Definition Qlt_bool (x y : Q) : bool := negb (Qle_bool y x).

(** [String.prototype.startsWith] for the code-unit model. *)
Fixpoint startsWith (needle s : string) : bool :=
  match needle, s with
  | EmptyString, _ => true
  | String a n', String b s' => if Ascii.eqb a b then startsWith n' s' else false
  | String _ _, EmptyString => false
  end.

(** [s.includes(needle)]. *)
Fixpoint includes (s needle : string) : bool :=
  if startsWith needle s then true
  else match s with
       | EmptyString => false
       | String _ s' => includes s' needle
       end.

Fixpoint dropS (n : nat) (s : string) : string :=
  match n, s with
  | O, _ => s
  | S n', String _ s' => dropS n' s'
  | S _, EmptyString => EmptyString
  end.

Fixpoint takeS (n : nat) (s : string) : string :=
  match n, s with
  | O, _ => EmptyString
  | S n', String a s' => String a (takeS n' s')
  | S _, EmptyString => EmptyString
  end.

(** First index [>= 0] of [needle] in [s], counted from the head of [s]. *)
Fixpoint findFrom (needle s : string) (pos : Z) : Z :=
  if startsWith needle s then pos
  else match s with
       | EmptyString => -1
       | String _ s' => findFrom needle s' (pos + 1)
       end.

(** [s.indexOf(needle, from)]: a negative [from] counts as 0, one past the
    end as the length; the result is [-1] when there is no occurrence. *)
Definition indexOf (s needle : string) (from : Z) : Z :=
  let k := Z.min (Z.max from 0) (jsLength s) in
  findFrom needle (dropS (Z.to_nat k) s) k.

(** Relative index resolution shared by both arguments of [slice]. *)
Definition clampIndex (len i : Z) : Z :=
  if i <? 0 then Z.max (len + i) 0 else Z.min i len.

(** [s.slice(start, end)]; [None] for an omitted [end]. *)
Definition slice (s : string) (start : Z) (stop : option Z) : string :=
  let len := jsLength s in
  let from := clampIndex len start in
  let to := match stop with None => len | Some e => clampIndex len e end in
  takeS (Z.to_nat (Z.max (to - from) 0)) (dropS (Z.to_nat from) s).

(** White space and line terminators among the code units 0..255: the
    class [\s] of regular expressions, and what [trim] removes. *)
Definition isSpace (c : ascii) : bool :=
  let n := nat_of_ascii c in
  ((9 <=? n) && (n <=? 13) || (n =? 32) || (n =? 160))%nat.

Fixpoint trimStart (s : string) : string :=
  match s with
  | String c s' => if isSpace c then trimStart s' else s
  | EmptyString => EmptyString
  end.

Fixpoint trimEnd (s : string) : string :=
  match s with
  | EmptyString => EmptyString
  | String c s' =>
      match trimEnd s' with
      | EmptyString => if isSpace c then EmptyString else String c EmptyString
      | t => String c t
      end
  end.

Definition trim (s : string) : string := trimEnd (trimStart s).

(** [toLowerCase] on the code units 0..255: A-Z, and the Latin-1 capitals
    192..222 without the multiplication sign 215. *)
Definition lowerChar (c : ascii) : ascii :=
  let n := nat_of_ascii c in
  if ((65 <=? n) && (n <=? 90) || (192 <=? n) && (n <=? 222) && negb (n =? 215))%nat
  then ascii_of_nat (n + 32) else c.

Fixpoint toLowerCase (s : string) : string :=
  match s with
  | EmptyString => EmptyString
  | String c s' => String (lowerChar c) (toLowerCase s')
  end.

(** Case folding of the [i] flag: only the ASCII letters fold onto each
    other for the ASCII patterns of this program. *)
Definition foldChar (c : ascii) : ascii :=
  let n := nat_of_ascii c in
  if ((65 <=? n) && (n <=? 90))%nat then ascii_of_nat (n + 32) else c.

Fixpoint foldCase (s : string) : string :=
  match s with
  | EmptyString => EmptyString
  | String c s' => String (foldChar c) (foldCase s')
  end.

(** [/lit/i.test(s)] for a pattern without metacharacters. *)
Definition testI (lit s : string) : bool :=
  includes (foldCase s) (foldCase lit).

(** Number of matches of [s.match(new RegExp(escaped w, 'gi'))]: the
    occurrences of [w] found left to right, each search resuming behind the
    previous match.  [skip] counts the code units still covered by it. *)
Fixpoint countFrom (w s : string) (skip : nat) : Z :=
  match s with
  | EmptyString =>
      match w, skip with EmptyString, O => 1 | _, _ => 0 end
  | String _ s' =>
      match skip with
      | S k => countFrom w s' k
      | O => if startsWith w s
             then 1 + countFrom w s' (String.length w - 1)
             else countFrom w s' 0
      end
  end.

Definition countMatchesI (w s : string) : Z :=
  countFrom (foldCase w) (foldCase s) 0.

End JsString.

(** ** The regular expressions of the program

    Every pattern the source uses for splitting is a sequence of character
    classes under greedy quantifiers, so a pattern is a list of items
    [(class, least, most)], matched with backtracking in the priority order
    of a JavaScript engine: longest repetition first. *)

Module Regex.
Import JsString.

Record Item := mkItem {
  cls : ascii -> bool;
  least : nat;
  most : option nat
}.

Definition underMost (count : nat) (hi : option nat) : bool :=
  match hi with None => true | Some h => (count <? h)%nat end.

(** The repetition stops after [count] code units: allowed once the least
    number is reached, and then the rest of the pattern [k] has to match. *)
Definition settle (it : Item) (k : string -> option nat) (count : nat) (s : string)
  : option nat :=
  if (least it <=? count)%nat then k s else None.

(** One quantified class followed by the continuation [k]; the result is
    the number of code units consumed by the class and by [k]. *)
Fixpoint greedy (it : Item) (k : string -> option nat) (count : nat) (s : string)
  : option nat :=
  match s with
  | String a s' =>
      if cls it a && underMost count (most it) then
        match greedy it k (S count) s' with
        | Some r => Some (S r)
        | None => settle it k count s
        end
      else settle it k count s
  | EmptyString => settle it k count s
  end.

(** Match of the whole pattern at the head of [s]. *)
Fixpoint matchAt (items : list Item) : string -> option nat :=
  match items with
  | [] => fun _ => Some O
  | it :: rest => greedy it (matchAt rest) O
  end.

(** [s.match(re)] for a global pattern: the matched substrings from left to
    right ([[]] stands for [null]).  [skip] counts the code units covered by
    the previous match; an empty match advances by one code unit. *)
Fixpoint matchAllFrom (items : list Item) (s : string) (skip : nat) : list string :=
  match skip with
  | S k =>
      match s with
      | String _ s' => matchAllFrom items s' k
      | EmptyString => []
      end
  | O =>
      match matchAt items s with
      | Some n =>
          takeS n s ::
          match s with
          | String _ s' => matchAllFrom items s' (n - 1)
          | EmptyString => []
          end
      | None =>
          match s with
          | String _ s' => matchAllFrom items s' 0
          | EmptyString => []
          end
      end
  end.

Definition matchAll (items : list Item) (s : string) : list string :=
  matchAllFrom items s 0.

(** [s.split(re)]: [cur] is the piece being collected, in reverse; a match
    that is empty at the start of a piece does not split. *)
Fixpoint splitFrom (items : list Item) (s : string) (cur : list ascii) (skip : nat)
  : list string :=
  match skip with
  | S k =>
      match s with
      | String _ s' => splitFrom items s' cur k
      | EmptyString => [string_of_list_ascii (rev cur)]
      end
  | O =>
      match s with
      | EmptyString => [string_of_list_ascii (rev cur)]
      | String a s' =>
          match matchAt items s with
          | Some (S n) => string_of_list_ascii (rev cur) :: splitFrom items s' [] n
          | _ => splitFrom items s' (a :: cur) 0
          end
      end
  end.

Definition split (items : list Item) (s : string) : list string :=
  splitFrom items s [] 0.

Definition one (c : ascii -> bool) : Item := mkItem c 1 (Some 1%nat).
Definition star (c : ascii -> bool) : Item := mkItem c 0 None.
Definition plus (c : ascii -> bool) : Item := mkItem c 1 None.
Definition range (c : ascii -> bool) (lo : nat) (hi : option nat) : Item := mkItem c lo hi.

Definition code (c : ascii) : nat := nat_of_ascii c.
Definition isNl (c : ascii) : bool := (code c =? 10)%nat.
Definition isHash (c : ascii) : bool := (code c =? 35)%nat.
Definition isDot (c : ascii) : bool := (code c =? 46)%nat.
Definition isColon (c : ascii) : bool := (code c =? 58)%nat.
Definition isUpper (c : ascii) : bool := ((65 <=? code c) && (code c <=? 90))%nat.
Definition isDigit (c : ascii) : bool := ((48 <=? code c) && (code c <=? 57))%nat.
(** The class [.]: everything but the line terminators. *)
Definition isAny (c : ascii) : bool := negb ((code c =? 10) || (code c =? 13))%nat.
Definition notDot (c : ascii) : bool := negb (isDot c).
Definition isUpperOrSpace (c : ascii) : bool := isUpper c || isSpace c.

(** [/\s+/] *)
Definition reSpaces : list Item := [plus isSpace].
(** [/\n\s*\n/] *)
Definition reBlankLine : list Item := [one isNl; star isSpace; one isNl].
(** [/\n\s*#{1,6}\s+.+/g] *)
Definition reMarkdownHeader : list Item :=
  [one isNl; star isSpace; range isHash 1 (Some 6%nat); plus isSpace; plus isAny].
(** [/\n\s*[A-Z][A-Z\s]{2,}\n/g] *)
Definition reCapsHeader : list Item :=
  [one isNl; star isSpace; one isUpper; range isUpperOrSpace 2 None; one isNl].
(** [/\n\s*\d+\.\s+[A-Z][^.]*\n/g] *)
Definition reNumbered : list Item :=
  [one isNl; star isSpace; plus isDigit; one isDot; plus isSpace; one isUpper;
   star notDot; one isNl].
(** [/\n\s*[A-Z][^.]*:\n/g] *)
Definition reColonHeader : list Item :=
  [one isNl; star isSpace; one isUpper; star notDot; one isColon; one isNl].

(** The characters of [lit], each taken literally. *)
Definition literal (lit : string) : list Item :=
  map (fun c => one (Ascii.eqb c)) (list_ascii_of_string lit).

(** Expansion of a replacement text for one match of a pattern without
    groups: [$$] is a dollar sign, [$&] the match, [$`] the text before it and
    [$'] the text behind it; every other character stands for itself. *)
Fixpoint expand (repl before matched after : string) : string :=
  match repl with
  | EmptyString => EmptyString
  | String a tail =>
      if (code a =? 36)%nat then
        match tail with
        | EmptyString => String a EmptyString
        | String c rest =>
            if (code c =? 36)%nat then String a (expand rest before matched after)
            else if (code c =? 38)%nat then matched +:+ expand rest before matched after
            else if (code c =? 96)%nat then before +:+ expand rest before matched after
            else if (code c =? 39)%nat then after +:+ expand rest before matched after
            else String a (expand tail before matched after)
        end
      else String a (expand tail before matched after)
  end.

(** [s.replace(re, repl)] for a global pattern.  [before] holds the code
    units already passed, in reverse, and [skip] counts those still covered by
    the previous match. *)
Fixpoint replaceFrom (items : list Item) (repl : string) (s : string)
    (before : list ascii) (skip : nat) : string :=
  match skip with
  | S k =>
      match s with
      | String a s' => replaceFrom items repl s' (a :: before) k
      | EmptyString => EmptyString
      end
  | O =>
      match matchAt items s with
      | Some n =>
          expand repl (string_of_list_ascii (rev before)) (takeS n s) (dropS n s)
          +:+ match s, n with
              | String a s', O => String a (replaceFrom items repl s' (a :: before) 0)
              | String a s', S k => replaceFrom items repl s' (a :: before) k
              | EmptyString, _ => EmptyString
              end
      | None =>
          match s with
          | String a s' => String a (replaceFrom items repl s' (a :: before) 0)
          | EmptyString => EmptyString
          end
      end
  end.

Definition replaceAll (items : list Item) (repl : string) (s : string) : string :=
  replaceFrom items repl s [] 0.

(** [/\n\s*\n\s*\n/g] *)
Definition reTripleBreak : list Item :=
  [one isNl; star isSpace; one isNl; star isSpace; one isNl].

End Regex.

(** ** SmartContentProcessor *)

Module SmartContentProcessor.
Import JsString Regex.

Inductive ChunkType := section | paragraph.

(** A chunk object.  [type], [originalLength] and [enhancedLength] are
    absent ([None]) until the code that sets them has run. *)
Record Chunk := mkChunk {
  content : string;
  relevance : Q;
  type : option ChunkType;
  originalLength : option Z;
  enhancedLength : option Z
}.

(** The two fields the constructor initialises. *)
Record Processor := mkProcessor {
  maxChunkSize : Z;
  overlapSize : Z
}.

Definition defaultProcessor : Processor :=
  {| maxChunkSize := 25000; overlapSize := 1000 |}.

Definition disclaimerPatterns : list string :=
  ["disclaimer"; "legal"; "forward-looking"; "cautionary";
   "moderator"; "introduction"; "opening remarks";
   "apologize"; "notice"; "standard"; "portion"].

Definition businessPatterns : list string :=
  ["revenue"; "earnings"; "profit"; "growth"; "financial";
   "quarter"; "performance"; "strategy"; "initiative";
   "business"; "operational"; "market"; "segment";
   "medical"; "health"; "care"; "provider"; "network";
   "utilization"; "quality"; "satisfaction"; "investment"].

(** Number of patterns of the list that [test] true on [s]. *)
Definition hits (patterns : list string) (s : string) : Z :=
  Z.of_nat (length (List.filter (fun p => testI p s) patterns)).

(** The loop over the query words: [(score, exactMatches)] are threaded
    through.  The escaped word always compiles, so only the [try] body is
    taken. *)
Definition scoreWord (contentLower : string) (acc : Z * Z) (word : string) : Z * Z :=
  let '(score, exactMatches) := acc in
  if jsLength word <? 3 then acc
  else
    let score' := score + countMatchesI word contentLower in
    if includes contentLower word then (score', exactMatches + 1)
    else (score', exactMatches).

(** The quotient of the normalisation, as an exact rational; [n] is the
    number of query words, at least one. *)
Definition ratio (num : Z) (n : nat) : Q :=
  Qmake num (Pos.of_nat (n * 10)).

Definition calculateRelevance (content query : string) : Q :=
  if String.eqb query "" then 1 # 2
  else
    let queryWords := split reSpaces (toLowerCase query) in
    let contentLower := toLowerCase content in
    let score := 0 - 5 * hits disclaimerPatterns contentLower in
    let score := score + 3 * hits businessPatterns contentLower in
    let '(score, exactMatches) :=
      fold_left (scoreWord contentLower) queryWords (score, 0) in
    Qmin 1 (Qmax 0 (ratio (score + exactMatches * 2) (length queryWords))).

(** [addOverlap]: [prev] is the chunk before the current one in the input
    array, if any. *)
Definition enhance (p : Processor) (prev : option Chunk) (c : Chunk) (next : option Chunk)
  : Chunk :=
  let enhancedContent := content c in
  let enhancedContent :=
    match prev with
    | Some prevChunk =>
        let overlapText := slice (content prevChunk) (- overlapSize p) None in
        "[Previous context: " +:+ overlapText +:+ "]" +:+ nl +:+ nl +:+ enhancedContent
    | None => enhancedContent
    end in
  let enhancedContent :=
    match next with
    | Some nextChunk =>
        let overlapText := slice (content nextChunk) 0 (Some (overlapSize p)) in
        enhancedContent +:+ nl +:+ nl +:+ "[Next context: " +:+ overlapText +:+ "]"
    | None => enhancedContent
    end in
  {| content := enhancedContent;
     relevance := relevance c;
     type := type c;
     originalLength := Some (jsLength (content c));
     enhancedLength := Some (jsLength enhancedContent) |}.

Fixpoint overlapLoop (p : Processor) (prev : option Chunk) (chunks : list Chunk)
  : list Chunk :=
  match chunks with
  | [] => []
  | c :: rest => enhance p prev c (head rest) :: overlapLoop p (Some c) rest
  end.

Definition addOverlap (p : Processor) (chunks : list Chunk) : list Chunk :=
  if (length chunks <=? 1)%nat then chunks else overlapLoop p None chunks.

(** The loop of [splitByPattern] over the matches; the state is
    [(sections, lastIndex)]. *)
Definition splitStep (content : string) (acc : list string * Z) (m : string)
  : list string * Z :=
  let '(sections, lastIndex) := acc in
  let matchIndex := indexOf content m lastIndex in
  let sections :=
    if lastIndex <? matchIndex
    then sections ++ [trim (slice content lastIndex (Some matchIndex))]
    else sections in
  (sections, matchIndex).

Definition splitByPattern (content : string) (pattern : list Item) : list string :=
  match matchAll pattern content with
  | [] => [content]
  | matches =>
      let '(sections, lastIndex) := fold_left (splitStep content) matches ([], 0) in
      let sections :=
        if lastIndex <? jsLength content
        then sections ++ [trim (slice content lastIndex None)]
        else sections in
      List.filter (fun s => 100 <? jsLength s) sections
  end.

Definition sectionPatterns : list (list Item) :=
  [reMarkdownHeader; reCapsHeader; reNumbered; reColonHeader].

Definition disclaimerKeywords : list string :=
  ["disclaimer"; "legal"; "forward-looking"; "cautionary";
   "apologize"; "notice"; "standard"; "portion"; "moderator";
   "introduction"; "opening remarks"; "good morning"; "welcome"].

Definition businessKeywords : list string :=
  ["revenue"; "earnings"; "profit"; "growth"; "financial";
   "quarter"; "performance"; "strategy"; "initiative";
   "business"; "operational"; "market"; "segment";
   "medical"; "health"; "care"; "provider"; "network";
   "medicare"; "medicaid"; "aca"; "employer"; "portfolio";
   "billion"; "million"; "cost"; "trend"; "utilization"].

Definition keywordCount (keywords : list string) (sectionLower : string) : Z :=
  Z.of_nat (length (List.filter (fun keyword => includes sectionLower keyword) keywords)).

Definition shouldKeep (sec : string) : bool :=
  let sectionLower := toLowerCase sec in
  let disclaimerCount := keywordCount disclaimerKeywords sectionLower in
  let businessCount := keywordCount businessKeywords sectionLower in
  (2 <=? businessCount) || ((1 <=? businessCount) && (disclaimerCount <? 3)).

(** The loop over the patterns: the first one with more than one match
    splits the content. *)
Fixpoint initialSections (content : string) (patterns : list (list Item)) : list string :=
  match patterns with
  | [] => [content]
  | pattern :: rest =>
      if (1 <? length (matchAll pattern content))%nat
      then splitByPattern content pattern
      else initialSections content rest
  end.

Definition splitBySections (content : string) : list string :=
  let sections := initialSections content sectionPatterns in
  let filteredSections := List.filter shouldKeep sections in
  List.filter (fun s => 100 <? jsLength (trim s)) filteredSections.

Definition paragraphChunk (currentChunk : string) : Chunk :=
  {| content := trim currentChunk;
     relevance := calculateRelevance currentChunk "";
     type := Some paragraph;
     originalLength := None;
     enhancedLength := None |}.

(** The loop of [splitByParagraphs]; the state is [(chunks, currentChunk)]. *)
Definition packStep (p : Processor) (acc : list Chunk * string) (par : string)
  : list Chunk * string :=
  let '(chunks, currentChunk) := acc in
  if jsLength (currentChunk +:+ par) <=? maxChunkSize p
  then (chunks,
        currentChunk +:+ (if String.eqb currentChunk "" then "" else nl +:+ nl) +:+ par)
  else ((if String.eqb currentChunk "" then chunks
         else chunks ++ [paragraphChunk currentChunk]),
        par).

Definition splitByParagraphs (p : Processor) (content : string) : list Chunk :=
  let paragraphs := split reBlankLine content in
  let '(chunks, currentChunk) := fold_left (packStep p) paragraphs ([], "") in
  if String.eqb (trim currentChunk) "" then chunks
  else chunks ++ [paragraphChunk currentChunk].

(** The chunks one section contributes. *)
Definition sectionChunks (p : Processor) (query sec : string) : list Chunk :=
  if jsLength sec <=? maxChunkSize p
  then [ {| content := sec;
            relevance := calculateRelevance sec query;
            type := Some section;
            originalLength := None;
            enhancedLength := None |} ]
  else map (fun chunk =>
              {| content := content chunk;
                 relevance := relevance chunk;
                 type := Some paragraph;
                 originalLength := originalLength chunk;
                 enhancedLength := enhancedLength chunk |})
           (splitByParagraphs p sec).

(** The array [chunks] at the end of the loop over the sections. *)
Definition candidateChunks (p : Processor) (content query : string) : list Chunk :=
  flat_map (sectionChunks p query) (splitBySections content).

(** [chunks.sort((a, b) => b.relevance - a.relevance)]: the sort is stable
    and the order is by descending relevance. *)
Fixpoint insertChunk (c : Chunk) (sorted : list Chunk) : list Chunk :=
  match sorted with
  | [] => [c]
  | d :: rest =>
      if Qlt_bool (relevance c) (relevance d)
      then d :: insertChunk c rest
      else c :: d :: rest
  end.

Definition sortChunks (chunks : list Chunk) : list Chunk :=
  foldr insertChunk [] chunks.

Definition sortedChunks (p : Processor) (content query : string) : list Chunk :=
  sortChunks (candidateChunks p content query).

(** [chunks.filter(chunk => chunk.relevance > -0.5)] *)
Definition keepRelevant (chunks : list Chunk) : list Chunk :=
  List.filter (fun chunk => Qlt_bool (-1 # 2) (relevance chunk)) chunks.

Definition filteredChunks (p : Processor) (content query : string) : list Chunk :=
  keepRelevant (sortedChunks p content query).

(** The [return] statement that produced the result. *)
Inductive Exit := SingleChunk | TopTwoFallback | Filtered.

Definition chunkContentTraced (p : Processor) (content query : string)
  : Exit * list Chunk :=
  if jsLength content <=? maxChunkSize p
  then (SingleChunk,
        [ {| content := content;
             relevance := calculateRelevance content query;
             type := None;
             originalLength := None;
             enhancedLength := None |} ])
  else
    let chunks := sortedChunks p content query in
    let filtered := filteredChunks p content query in
    if (length filtered =? 0)%nat
    then (TopTwoFallback, addOverlap p (take 2 chunks))
    else (Filtered, addOverlap p filtered).

Definition chunkContent (p : Processor) (content query : string) : list Chunk :=
  snd (chunkContentTraced p content query).

(** An entry of [chunkDetails]. *)
Record ChunkDetail := mkChunkDetail {
  chunkNumber : Z;
  detailOriginalLength : option Z;
  detailEnhancedLength : option Z;
  detailRelevance : string;
  detailType : option ChunkType;
  preview : string
}.

(** The result of [getChunkSummary]; in [totalContentLength], [None] is the
    [NaN] that the sum becomes with the first chunk without [originalLength]. *)
Record ChunkSummary := mkChunkSummary {
  totalChunks : Z;
  totalContentLength : option Z;
  chunkDetails : list ChunkDetail
}.

(** [sum + chunk.originalLength] *)
Definition addLength (sum : option Z) (chunk : Chunk) : option Z :=
  match sum, originalLength chunk with
  | Some a, Some b => Some (a + b)
  | _, _ => None
  end.

(** [getChunkSummary]; [toFixed2] is [Number.prototype.toFixed] with two
    digits. *)
Definition getChunkSummary (toFixed2 : Q -> string) (chunks : list Chunk)
  : ChunkSummary :=
  {| totalChunks := Z.of_nat (length chunks);
     totalContentLength := fold_left addLength chunks (Some 0);
     chunkDetails :=
       imap (fun index chunk =>
               {| chunkNumber := Z.of_nat index + 1;
                  detailOriginalLength := originalLength chunk;
                  detailEnhancedLength := enhancedLength chunk;
                  detailRelevance := toFixed2 (relevance chunk);
                  detailType := type chunk;
                  preview := takeS 100 (content chunk) +:+ "..." |})
            chunks |}.

End SmartContentProcessor.

(** ** ContentCache *)

Module ContentCache.
Import JsString.

Section Cache.

(** The cached payload: an array of chunks or a response text. *)
Variable Payload : Type.
(** [crypto.createHash('sha256').update(s).digest('hex')], a service of the
    platform. *)
Variable sha256hex : string -> string.
Record Metadata := mkMetadata {
  extra : list (string * string);
  originalLength : Z;
  query : string;
  timestamp : Z;
  expiresAt : option Z
}.

(** A cache entry as it sits in memory or comes back from [JSON.parse]. *)
Record CacheData := mkCacheData {
  content : Payload;
  metadata : option Metadata
}.

(** [JSON.stringify(cacheData).length] *)
Variable jsonLength : CacheData -> Z.

(** A file [<key>.json] of the cache directory: its text either parses to
    an entry or makes [JSON.parse] throw. *)
Inductive DiskFile := Corrupt | Parsed (d : CacheData).

Record IndexEntry := mkIndexEntry {
  ix_timestamp : Z;
  ix_expiresAt : option Z;
  ix_originalLength : Z;
  ix_query : string;
  ix_size : Z
}.

Inductive IndexFile := CorruptIndex | ParsedIndex (ix : gmap string IndexEntry).

Record Stats := mkStats {
  hits : Z;
  misses : Z;
  saves : Z;
  totalSize : Z
}.

(** The object together with the directory it owns.  [memoryCache] is a
    [Map]: the list keeps the insertion order of the keys. *)
Record Cache := mkCache {
  memoryCache : list (string * CacheData);
  maxMemorySize : nat;
  cacheStats : Stats;
  files : gmap string DiskFile;
  indexFile : option IndexFile
}.

Definition emptyCache : Cache :=
  {| memoryCache := [];
     maxMemorySize := 100;
     cacheStats := mkStats 0 0 0 0;
     files := ∅;
     indexFile := None |}.

Definition generateCacheKey (content query : string) : string :=
  sha256hex (content +:+ "|" +:+ query).

(** [Map.prototype.get] *)
Fixpoint mapGet (m : list (string * CacheData)) (key : string) : option CacheData :=
  match m with
  | [] => None
  | (k, v) :: rest => if String.eqb k key then Some v else mapGet rest key
  end.

(** [Map.prototype.set]: a present key keeps its place, a new one goes last. *)
Fixpoint mapSet (m : list (string * CacheData)) (key : string) (v : CacheData)
  : list (string * CacheData) :=
  match m with
  | [] => [(key, v)]
  | (k, w) :: rest =>
      if String.eqb k key then (k, v) :: rest else (k, w) :: mapSet rest key v
  end.

(** [Map.prototype.delete] *)
Definition mapDelete (m : list (string * CacheData)) (key : string)
  : list (string * CacheData) :=
  List.filter (fun kv => negb (String.eqb (fst kv) key)) m.

Definition addToMemoryCache (c : Cache) (cacheKey : string) (cacheData : CacheData)
  : Cache :=
  let mem :=
    if (maxMemorySize c <=? length (memoryCache c))%nat then
      match memoryCache c with
      | (oldestKey, _) :: _ => mapDelete (memoryCache c) oldestKey
      | [] => []
      end
    else memoryCache c in
  {| memoryCache := mapSet mem cacheKey cacheData;
     maxMemorySize := maxMemorySize c;
     cacheStats := cacheStats c;
     files := files c;
     indexFile := indexFile c |}.

Definition isCacheValid (cached : CacheData) (now : Z) : bool :=
  match metadata cached with
  | None => false
  | Some md =>
      match expiresAt md with
      | None => false
      | Some e => if e =? 0 then false else now <? e
      end
  end.

Definition bumpHits (s : Stats) : Stats :=
  mkStats (hits s + 1) (misses s) (saves s) (totalSize s).

Definition bumpMisses (s : Stats) : Stats :=
  mkStats (hits s) (misses s + 1) (saves s) (totalSize s).

Definition withStats (c : Cache) (s : Stats) : Cache :=
  {| memoryCache := memoryCache c;
     maxMemorySize := maxMemorySize c;
     cacheStats := s;
     files := files c;
     indexFile := indexFile c |}.

(** [fs.unlinkSync] of the file of [key]. *)
Definition unlink (c : Cache) (key : string) : Cache :=
  {| memoryCache := memoryCache c;
     maxMemorySize := maxMemorySize c;
     cacheStats := cacheStats c;
     files := delete key (files c);
     indexFile := indexFile c |}.

(** [getCachedContent]; [None] is the [null] of a miss. *)
Definition getCachedContent (c : Cache) (content query : string) (now : Z)
  : Cache * option CacheData :=
  let cacheKey := generateCacheKey content query in
  match mapGet (memoryCache c) cacheKey with
  | Some cached => (withStats c (bumpHits (cacheStats c)), Some cached)
  | None =>
      match files c !! cacheKey with
      | Some (Parsed cached) =>
          if isCacheValid cached now then
            (addToMemoryCache (withStats c (bumpHits (cacheStats c))) cacheKey cached,
             Some cached)
          else
            (withStats (unlink c cacheKey) (bumpMisses (cacheStats c)), None)
      | Some Corrupt =>
          (withStats (unlink c cacheKey) (bumpMisses (cacheStats c)), None)
      | None => (withStats c (bumpMisses (cacheStats c)), None)
      end
  end.

(** [updateCacheIndex]: an unreadable index starts again from [{}]; a failed
    write of the index is caught and leaves the old file. *)
Definition updateCacheIndex (c : Cache) (cacheKey : string) (cacheData : CacheData)
    (md : Metadata) (indexWriteFails : bool) : Cache :=
  let index :=
    match indexFile c with
    | Some (ParsedIndex ix) => ix
    | _ => ∅
    end in
  let entry := mkIndexEntry (timestamp md) (expiresAt md) (originalLength md)
                 (query md) (jsonLength cacheData) in
  if indexWriteFails then c
  else {| memoryCache := memoryCache c;
          maxMemorySize := maxMemorySize c;
          cacheStats := cacheStats c;
          files := files c;
          indexFile := Some (ParsedIndex (<[cacheKey := entry]> index)) |}.

Definition day : Z := 24 * 60 * 60 * 1000.

(** [cacheContent].  [writeFails] says that [fs.writeFileSync] of the entry
    throws; the surrounding [try] then skips the rest of the block. *)
Definition cacheContent (c : Cache) (content query : string) (processedChunks : Payload)
    (extraMetadata : list (string * string)) (now : Z)
    (writeFails indexWriteFails : bool) : Cache * bool :=
  let cacheKey := generateCacheKey content query in
  let md := {| extra := extraMetadata;
               originalLength := jsLength content;
               query := query;
               timestamp := now;
               expiresAt := Some (now + day) |} in
  let cacheData := {| content := processedChunks; metadata := Some md |} in
  if writeFails then (c, false)
  else
    let c1 := {| memoryCache := memoryCache c;
                 maxMemorySize := maxMemorySize c;
                 cacheStats := cacheStats c;
                 files := <[cacheKey := Parsed cacheData]> (files c);
                 indexFile := indexFile c |} in
    let c2 := addToMemoryCache c1 cacheKey cacheData in
    let c3 := updateCacheIndex c2 cacheKey cacheData md indexWriteFails in
    let s := cacheStats c3 in
    (withStats c3 (mkStats (hits s) (misses s) (saves s + 1)
                     (totalSize s + jsonLength cacheData)),
     true).

(** [new ContentCache()] over a cache directory as an earlier process left
    it: the directory is kept, the in-memory tier and the statistics start
    empty. *)
Definition construct (dir : gmap string DiskFile) (ix : option IndexFile) : Cache :=
  {| memoryCache := [];
     maxMemorySize := 100;
     cacheStats := mkStats 0 0 0 0;
     files := dir;
     indexFile := ix |}.

(** [entry.expiresAt && now > entry.expiresAt] *)
Definition expiredEntry (entry : IndexEntry) (now : Z) : bool :=
  match ix_expiresAt entry with
  | Some e => negb (e =? 0) && (e <? now)
  | None => false
  end.

(** The body of the loop of [clearExpiredCache] over the entries of the
    index. *)
Definition sweepStep (now : Z) (dir : gmap string DiskFile) (ke : string * IndexEntry)
  : gmap string DiskFile :=
  if expiredEntry (snd ke) now then delete (fst ke) dir else dir.

(** [clearExpiredCache]: without an index file, or with one that does not
    parse, nothing is done. *)
Definition clearExpiredCache (c : Cache) (now : Z) : Cache :=
  match indexFile c with
  | Some (ParsedIndex ix) =>
      {| memoryCache := memoryCache c;
         maxMemorySize := maxMemorySize c;
         cacheStats := cacheStats c;
         files := fold_left (sweepStep now) (map_to_list ix) (files c);
         indexFile := indexFile c |}
  | _ => c
  end.

(** [clearAllCache]; [readFails] says that reading the directory throws.
    The index is one of the files that end in [.json]. *)
Definition clearAllCache (c : Cache) (readFails : bool) : Cache * bool :=
  if readFails then (c, false)
  else ({| memoryCache := [];
           maxMemorySize := maxMemorySize c;
           cacheStats := mkStats 0 0 0 0;
           files := ∅;
           indexFile := None |},
        true).

(** The body of the loop of [preloadContent]. *)
Definition preloadStep (now : Z) (c : Cache) (key : string) : Cache :=
  match files c !! key with
  | Some (Parsed cached) =>
      if isCacheValid cached now then addToMemoryCache c key cached else c
  | _ => c
  end.

Definition preloadContent (c : Cache) (contentKeys : list string) (now : Z) : Cache :=
  fold_left (preloadStep now) contentKeys c.

(** The object [getCacheStats] returns. *)
Record StatsView := mkStatsView {
  memoryCacheSize : Z;
  diskCacheEntries : Z;
  totalDiskSize : Z;
  hitRate : Q;
  viewHits : Z;
  viewMisses : Z;
  viewSaves : Z;
  viewTotalSize : Z
}.

Definition getCacheStats (c : Cache) : StatsView :=
  let entries :=
    match indexFile c with
    | Some (ParsedIndex ix) => map snd (map_to_list ix)
    | _ => []
    end in
  {| memoryCacheSize := Z.of_nat (length (memoryCache c));
     diskCacheEntries := Z.of_nat (length entries);
     totalDiskSize := fold_left (fun sum entry => sum + ix_size entry) entries 0;
     hitRate := Qmake (hits (cacheStats c))
                      (Z.to_pos (Z.max 1 (hits (cacheStats c) + misses (cacheStats c))));
     viewHits := hits (cacheStats c);
     viewMisses := misses (cacheStats c);
     viewSaves := saves (cacheStats c);
     viewTotalSize := totalSize (cacheStats c) |}.

(** The calls a client of the cache makes, and the two sweeps of the
    timers. *)
Inductive CacheOp :=
  | OpGet (content query : string) (now : Z)
  | OpPut (content query : string) (processedChunks : Payload)
          (extraMetadata : list (string * string)) (now : Z)
          (writeFails indexWriteFails : bool)
  | OpSweep (now : Z)
  | OpClearAll (readFails : bool)
  | OpPreload (contentKeys : list string) (now : Z).

Definition cacheStep (c : Cache) (op : CacheOp) : Cache :=
  match op with
  | OpGet content query now => fst (getCachedContent c content query now)
  | OpPut content query processedChunks extraMetadata now writeFails indexWriteFails =>
      fst (cacheContent c content query processedChunks extraMetadata now
             writeFails indexWriteFails)
  | OpSweep now => clearExpiredCache c now
  | OpClearAll readFails => fst (clearAllCache c readFails)
  | OpPreload contentKeys now => preloadContent c contentKeys now
  end.

Definition runCache (c : Cache) (ops : list CacheOp) : Cache :=
  fold_left cacheStep ops c.

End Cache.

Arguments mkCacheData {Payload}.
Arguments Corrupt {Payload}.
Arguments Parsed {Payload}.
Arguments content {Payload}.
Arguments metadata {Payload}.
Arguments memoryCache {Payload}.
Arguments files {Payload}.
Arguments cacheStats {Payload}.
Arguments emptyCache {Payload}.
Arguments mapGet {Payload}.
Arguments mapSet {Payload}.
Arguments isCacheValid {Payload}.
Arguments getCachedContent {Payload}.
Arguments cacheContent {Payload}.
Arguments addToMemoryCache {Payload}.
Arguments construct {Payload}.
Arguments clearExpiredCache {Payload}.
Arguments clearAllCache {Payload}.
Arguments preloadContent {Payload}.
Arguments preloadStep {Payload}.
Arguments getCacheStats {Payload}.
Arguments OpGet {Payload}.
Arguments OpPut {Payload}.
Arguments sweepStep {Payload}.
Arguments cacheStep {Payload}.
Arguments runCache {Payload}.
Arguments unlink {Payload}.
Arguments withStats {Payload}.
Arguments updateCacheIndex {Payload}.
Arguments OpSweep {Payload}.
Arguments OpClearAll {Payload}.
Arguments OpPreload {Payload}.
Arguments maxMemorySize {Payload}.
Arguments indexFile {Payload}.
Arguments mapDelete {Payload}.

End ContentCache.

(** ** AdaptiveRateLimiter *)

Module AdaptiveRateLimiter.
Import JsString.

Inductive Tier := newUser | regular | power | enterprise.

Definition Tier_eqb (a b : Tier) : bool :=
  match a, b with
  | newUser, newUser | regular, regular | power, power | enterprise, enterprise => true
  | _, _ => false
  end.

(** An entry of [userLimits].  The two outcome counters only ever count
    up from zero. *)
Record User := mkUser {
  tier : Tier;
  requests : Z;
  lastRequest : Z;
  successCount : N;
  errorCount : N;
  upgradeEligible : bool
}.

(** [apiHealth]; its field [errorCount] is [apiErrorCount] here. *)
Record ApiHealth := mkApiHealth {
  successRate : Q;
  apiErrorCount : Z;
  totalRequests : Z;
  lastReset : Z
}.

(** The limiter with the last snapshot written to [user-limits.json]. *)
Record Limiter := mkLimiter {
  userLimits : gmap string User;
  apiHealth : ApiHealth;
  savedData : option (gmap string User * ApiHealth)
}.

Record Limit := mkLimit {
  limitRequests : Z;
  window : Z;
  limitTier : Tier;
  healthMultiplier : Q
}.

(** [baseLimits], as [(requests, window)]. *)
Definition baseLimits (t : Tier) : Z * Z :=
  match t with
  | newUser => (5, 60000)
  | regular => (15, 60000)
  | power => (25, 60000)
  | enterprise => (50, 60000)
  end.

Definition freshUser : User :=
  {| tier := newUser; requests := 0; lastRequest := 0;
     successCount := 0; errorCount := 0; upgradeEligible := false |}.

Definition getHealthMultiplier (h : ApiHealth) : Q :=
  let baseMultiplier := 1%Q in
  if Qlt_bool (successRate h) (8 # 10) then
    Qmax (5 # 10) (baseMultiplier * successRate h)
  else if Qlt_bool (95 # 100) (successRate h) && (1000 <? totalRequests h) then
    Qmin (15 # 10) (baseMultiplier * (1 + (successRate h - (95 # 100)) * 2))
  else baseMultiplier.

(** The limit computed by [getUserLimit] for a user object. *)
Definition limitOf (h : ApiHealth) (user : User) : Limit :=
  let '(baseRequests, baseWindow) := baseLimits (tier user) in
  let m := getHealthMultiplier h in
  {| limitRequests := Qfloor (inject_Z baseRequests * m);
     window := baseWindow;
     limitTier := tier user;
     healthMultiplier := m |}.

(** [getUserLimit]: an unknown user is entered first. *)
Definition getUserLimit (l : Limiter) (userId : string) : Limiter * Limit :=
  match userLimits l !! userId with
  | Some user => (l, limitOf (apiHealth l) user)
  | None =>
      ({| userLimits := <[userId := freshUser]> (userLimits l);
          apiHealth := apiHealth l;
          savedData := savedData l |},
       limitOf (apiHealth l) freshUser)
  end.

(** [successCount / (successCount + errorCount)]; [None] is the [NaN] of
    [0 / 0]. *)
Definition userSuccessRate (user : User) : option Q :=
  match (successCount user + errorCount user)%N with
  | N0 => None
  | Npos total => Some (Qmake (Z.of_N (successCount user)) total)
  end.

(** [x >= bound] and [x < bound]; both are false on [NaN]. *)
Definition numGe (x : option Q) (bound : Q) : bool :=
  match x with Some q => Qle_bool bound q | None => false end.

Definition numLt (x : option Q) (bound : Q) : bool :=
  match x with Some q => Qlt_bool q bound | None => false end.

Definition withTier (user : User) (t : Tier) (eligible : bool) : User :=
  {| tier := t; requests := requests user; lastRequest := lastRequest user;
     successCount := successCount user; errorCount := errorCount user;
     upgradeEligible := eligible |}.

(** [updateUserTier] on the user object. *)
Definition updateUserTier (user : User) : User :=
  let successRate := userSuccessRate user in
  let totalRequests := Z.of_N (successCount user + errorCount user) in
  let user :=
    if (50 <=? totalRequests) && numGe successRate (9 # 10)
       && Tier_eqb (tier user) newUser
    then withTier user regular false
    else if (200 <=? totalRequests) && numGe successRate (95 # 100)
            && Tier_eqb (tier user) regular
    then withTier user power false
    else user in
  if (100 <=? totalRequests) && numLt successRate (7 # 10)
     && negb (Tier_eqb (tier user) newUser)
  then
    let newTier := if Tier_eqb (tier user) power then regular else newUser in
    withTier user newTier (upgradeEligible user)
  else user.

(** [updateApiHealth]; [now] is its reading of the clock. *)
Definition updateApiHealth (h : ApiHealth) (now : Z) : ApiHealth :=
  if 3600000 <? now - lastReset h
  then {| successRate := 1; apiErrorCount := 0; totalRequests := 0; lastReset := now |}
  else h.

(** The counters [recordRequest] moves before the tier and the health
    snapshot are looked at. *)
Definition countOutcome (user : User) (h : ApiHealth) (success : bool)
  : User * ApiHealth :=
  let '(user, h) :=
    if success then
      ({| tier := tier user; requests := requests user;
          lastRequest := lastRequest user;
          successCount := successCount user + 1;
          errorCount := errorCount user;
          upgradeEligible := upgradeEligible user |},
       {| successRate := successRate h * (9 # 10) + (1 # 10);
          apiErrorCount := apiErrorCount h;
          totalRequests := totalRequests h;
          lastReset := lastReset h |})
    else
      ({| tier := tier user; requests := requests user;
          lastRequest := lastRequest user;
          successCount := successCount user;
          errorCount := errorCount user + 1;
          upgradeEligible := upgradeEligible user |},
       {| successRate := successRate h;
          apiErrorCount := apiErrorCount h + 1;
          totalRequests := totalRequests h;
          lastReset := lastReset h |}) in
  (user,
   {| successRate := successRate h;
      apiErrorCount := apiErrorCount h;
      totalRequests := totalRequests h + 1;
      lastReset := lastReset h |}).

(** The body of [recordRequest] behind the guard, on the user object that
    the caller holds; the object is stored back under [userId]. *)
Definition recordOn (l : Limiter) (userId : string) (user : User) (success : bool)
    (now : Z) : Limiter :=
  let '(user, h) := countOutcome user (apiHealth l) success in
  let user := updateUserTier user in
  let h := updateApiHealth h now in
  let users := <[userId := user]> (userLimits l) in
  {| userLimits := users;
     apiHealth := h;
     savedData := if totalRequests h mod 100 =? 0 then Some (users, h)
                  else savedData l |}.

Definition recordRequest (l : Limiter) (userId : string) (success : bool) (now : Z)
  : Limiter :=
  match userLimits l !! userId with
  | None => l
  | Some user => recordOn l userId user success now
  end.

Inductive Verdict :=
  | Threw
  | Allowed (remaining : Z)
  | Denied (retryAfter : Z) (windowEnd : Z).

(** [Math.ceil(x / 1000)] of an integer [x]. *)
Definition ceilSeconds (x : Z) : Z := - ((- x) / 1000).

Definition withWindow (user : User) (count start : Z) : User :=
  {| tier := tier user; requests := count; lastRequest := start;
     successCount := successCount user; errorCount := errorCount user;
     upgradeEligible := upgradeEligible user |}.

(** [isRequestAllowed].  [now] is its own reading of the clock and
    [healthNow] the later one of [updateApiHealth].  For an unknown user the
    variable [user] is [undefined]: [getUserLimit] enters the record and the
    read of [user.lastRequest] throws. *)
Definition isRequestAllowed (l : Limiter) (userId : string) (now healthNow : Z)
  : Limiter * Verdict :=
  match userLimits l !! userId with
  | None => (fst (getUserLimit l userId), Threw)
  | Some user =>
      let limit := snd (getUserLimit l userId) in
      let user :=
        if window limit <? now - lastRequest user
        then withWindow user 0 now
        else user in
      if requests user <? limitRequests limit then
        let user := withWindow user (requests user + 1) now in
        (recordOn l userId user true healthNow,
         Allowed (limitRequests limit - requests user))
      else
        let timeUntilReset := window limit - (now - lastRequest user) in
        (recordOn l userId user false healthNow,
         Denied (ceilSeconds timeUntilReset) (lastRequest user + window limit))
  end.

Definition emptyLimiter (now : Z) : Limiter :=
  {| userLimits := ∅;
     apiHealth := {| successRate := 1; apiErrorCount := 0; totalRequests := 0;
                     lastReset := now |};
     savedData := None |}.

(** A run of recorded outcomes for one user, each with the clock reading of
    its health update. *)
Definition recordAll (l : Limiter) (userId : string) (outcomes : list (bool * Z))
  : Limiter :=
  fold_left (fun l o => recordRequest l userId (fst o) (snd o)) outcomes l.

Definition tierOf (l : Limiter) (userId : string) : option Tier :=
  tier <$> (userLimits l !! userId).

(** [getTierRequirements], as [(minRequests, minSuccessRate)]. *)
Definition getTierRequirements (t : Tier) : Z * Q :=
  match t with
  | regular => (50, 9 # 10)
  | power => (200, 95 # 100)
  | enterprise => (1000, 98 # 100)
  | newUser => (0, 0%Q)
  end.

Record NextTier := mkNextTier {
  nextTierName : Tier;
  requirements : Z * Q;
  nextTierLimit : Z
}.

(** [getNextTier]; [None] is the [null] behind the last tier. *)
Definition getNextTier (currentTier : Tier) : option NextTier :=
  let next :=
    match currentTier with
    | newUser => Some regular
    | regular => Some power
    | power => Some enterprise
    | enterprise => None
    end in
  match next with
  | Some nextTier =>
      Some {| nextTierName := nextTier;
              requirements := getTierRequirements nextTier;
              nextTierLimit := fst (baseLimits nextTier) |}
  | None => None
  end.

Record UserStats := mkUserStats {
  statsTier : Tier;
  currentLimit : Z;
  statsHealthMultiplier : Q;
  statsSuccessRate : Q;
  statsTotalRequests : Z;
  statsUpgradeEligible : bool;
  nextTier : option NextTier
}.

(** [getUserStats].  As in [isRequestAllowed], the user object is read
    before [getUserLimit] enters an unknown user, so the answer for an unknown
    user is [null] and the record is there afterwards. *)
Definition getUserStats (l : Limiter) (userId : string) : Limiter * option UserStats :=
  match userLimits l !! userId with
  | None => (fst (getUserLimit l userId), None)
  | Some user =>
      let limit := snd (getUserLimit l userId) in
      let total := Z.of_N (successCount user + errorCount user) in
      (l,
       Some {| statsTier := tier user;
               currentLimit := limitRequests limit;
               statsHealthMultiplier := healthMultiplier limit;
               statsSuccessRate :=
                 Qmake (Z.of_N (successCount user)) (Z.to_pos (Z.max 1 total));
               statsTotalRequests := total;
               statsUpgradeEligible := upgradeEligible user;
               nextTier := getNextTier (tier user) |})
  end.

(** [getTierDistribution]: the number of users per tier; 0 stands for a
    tier that is no key of the object. *)
Definition countTier (distribution : Tier -> Z) (entry : string * User) : Tier -> Z :=
  fun t => if Tier_eqb t (tier (snd entry)) then distribution t + 1 else distribution t.

Definition getTierDistribution (l : Limiter) : Tier -> Z :=
  fold_left countTier (map_to_list (userLimits l)) (fun _ => 0).

(** The calls a client of the limiter makes: the allow-check, the record of
    an outcome, and the two queries that enter an unknown user. *)
Inductive Op :=
  | OpCheck (userId : string) (now healthNow : Z)
  | OpRecord (userId : string) (success : bool) (now : Z)
  | OpLimit (userId : string)
  | OpStats (userId : string).

Definition step (l : Limiter) (op : Op) : Limiter :=
  match op with
  | OpCheck userId now healthNow => fst (isRequestAllowed l userId now healthNow)
  | OpRecord userId success now => recordRequest l userId success now
  | OpLimit userId => fst (getUserLimit l userId)
  | OpStats userId => fst (getUserStats l userId)
  end.

Definition run (l : Limiter) (ops : list Op) : Limiter := fold_left step ops l.

End AdaptiveRateLimiter.

(** ** SystemPromptManager *)

Module SystemPromptManager.
Import JsString.

Record Manager := mkManager {
  baseTemplate : string;
  currentUserText : string;
  currentRetrievedContext : string;
  lastBuiltPrompt : string
}.

Record Validation := mkValidation {
  isValid : bool;
  issues : list string;
  length : Z;
  hasUserText : bool;
  hasContext : bool
}.

Definition isEmpty (s : string) : bool := String.eqb s "".

Definition validatePrompt (m : Manager) (prompt : string) : Validation :=
  let issues := [] in
  let issues :=
    if isEmpty prompt || (jsLength (trim prompt) =? 0)
    then issues ++ ["Prompt is empty"] else issues in
  let issues :=
    if 100000 <? jsLength prompt
    then issues ++ ["Prompt exceeds recommended length"] else issues in
  let issues :=
    if includes prompt "{{USER_TEXT}}" && isEmpty (currentUserText m)
    then issues ++ ["User text placeholder not filled"] else issues in
  let issues :=
    if includes prompt "{{RETRIEVED_CONTEXT}}" && isEmpty (currentRetrievedContext m)
    then issues ++ ["Retrieved context placeholder not filled"] else issues in
  {| isValid := (List.length issues =? 0)%nat;
     issues := issues;
     length := jsLength prompt;
     hasUserText := negb (isEmpty (currentUserText m));
     hasContext := negb (isEmpty (currentRetrievedContext m)) |}.

(** [getDefaultTemplate].  The dash of the sixth line is outside the code
    units 0..255 and is written with its three UTF-8 bytes. *)
Definition getDefaultTemplate : string :=
  "Analyze the following text and provide insights about:" +:+ nl +:+
  "- Key financial metrics and year-over-year trends" +:+ nl +:+
  "- Business performance highlights and operational results" +:+ nl +:+
  "- Strategic initiatives, investments, and their outcomes" +:+ nl +:+
  "- Risk factors, challenges, and opportunities" +:+ nl +:+
  "- Market position changes and competitive advantages" +:+ nl +:+ nl +:+
  "Reference only the uploaded project documents for additional context — do not make up data."
  +:+ nl +:+ nl +:+
  "Historical Context (based only on uploaded documents and relevant to the typed terms):"
  +:+ nl +:+
  "{{RETRIEVED_CONTEXT}}" +:+ nl +:+ nl +:+
  "Text to Analyze:" +:+ nl +:+
  "{{USER_TEXT}}".

(** The manager the constructor builds. *)
Definition newManager : Manager :=
  {| baseTemplate := getDefaultTemplate;
     currentUserText := "";
     currentRetrievedContext := "";
     lastBuiltPrompt := "" |}.

(** The text [rebuildPrompt] builds from the template and the two inputs. *)
Definition buildPrompt (template userText context : string) : string :=
  let prompt := template in
  let prompt := Regex.replaceAll (Regex.literal "{{USER_TEXT}}") userText prompt in
  let prompt :=
    Regex.replaceAll (Regex.literal "{{RETRIEVED_CONTEXT}}")
      (if isEmpty context then "No relevant context found" else context) prompt in
  Regex.replaceAll Regex.reTripleBreak (nl +:+ nl) prompt.

(** [rebuildPrompt]: the new state and the prompt, which is also what the
    subscribers are called with. *)
Definition rebuildPrompt (m : Manager) : Manager * string :=
  let prompt :=
    buildPrompt (baseTemplate m) (currentUserText m) (currentRetrievedContext m) in
  ({| baseTemplate := baseTemplate m;
      currentUserText := currentUserText m;
      currentRetrievedContext := currentRetrievedContext m;
      lastBuiltPrompt := prompt |},
   prompt).

(** [setBaseTemplate] of a string; [inl] is the message of the error
    thrown. *)
Definition setBaseTemplate (m : Manager) (template : string) : string + Manager :=
  if isEmpty template then inl "Template must be a non-empty string"
  else if negb (includes template "{{USER_TEXT}}")
  then inl "Template must include {{USER_TEXT}} placeholder"
  else inr (fst (rebuildPrompt
                   {| baseTemplate := template;
                      currentUserText := currentUserText m;
                      currentRetrievedContext := currentRetrievedContext m;
                      lastBuiltPrompt := lastBuiltPrompt m |})).

Definition updateUserText (m : Manager) (userText : string) : Manager :=
  fst (rebuildPrompt
         {| baseTemplate := baseTemplate m;
            currentUserText := trim userText;
            currentRetrievedContext := currentRetrievedContext m;
            lastBuiltPrompt := lastBuiltPrompt m |}).

Definition updateRetrievedContext (m : Manager) (context : string) : Manager :=
  fst (rebuildPrompt
         {| baseTemplate := baseTemplate m;
            currentUserText := currentUserText m;
            currentRetrievedContext := trim context;
            lastBuiltPrompt := lastBuiltPrompt m |}).

Definition getCurrentPrompt (m : Manager) : Manager * string :=
  if isEmpty (lastBuiltPrompt m) then rebuildPrompt m else (m, lastBuiltPrompt m).

Definition reset (m : Manager) : Manager :=
  {| baseTemplate := baseTemplate m;
     currentUserText := "";
     currentRetrievedContext := "";
     lastBuiltPrompt := "" |}.

(** The data of [exportTemplate] that [importTemplate] reads. *)
Record TemplateData := mkTemplateData {
  dataBaseTemplate : string;
  dataUserText : string;
  dataRetrievedContext : string;
  dataLastBuiltPrompt : string
}.

Definition exportTemplate (m : Manager) : TemplateData :=
  {| dataBaseTemplate := baseTemplate m;
     dataUserText := currentUserText m;
     dataRetrievedContext := currentRetrievedContext m;
     dataLastBuiltPrompt := lastBuiltPrompt m |}.

(** [importTemplate]: every field that is not empty is handed to its
    setter; an error of [setBaseTemplate] ends the import with [false]. *)
Definition importTemplate (m : Manager) (d : TemplateData) : Manager * bool :=
  let step1 :=
    if isEmpty (dataBaseTemplate d) then inr m
    else setBaseTemplate m (dataBaseTemplate d) in
  match step1 with
  | inl _ => (m, false)
  | inr m1 =>
      let m2 := if isEmpty (dataUserText d) then m1
                else updateUserText m1 (dataUserText d) in
      let m3 := if isEmpty (dataRetrievedContext d) then m2
                else updateRetrievedContext m2 (dataRetrievedContext d) in
      (m3, true)
  end.

(** [getPromptStats] *)
Record PromptStats := mkPromptStats {
  baseTemplateLength : Z;
  currentUserTextLength : Z;
  currentContextLength : Z;
  lastBuiltPromptLength : Z;
  statsHasUserText : bool;
  statsHasContext : bool;
  statsIsValid : bool
}.

Definition getPromptStats (m : Manager) : PromptStats :=
  {| baseTemplateLength := jsLength (baseTemplate m);
     currentUserTextLength := jsLength (currentUserText m);
     currentContextLength := jsLength (currentRetrievedContext m);
     lastBuiltPromptLength := jsLength (lastBuiltPrompt m);
     statsHasUserText := negb (isEmpty (currentUserText m));
     statsHasContext := negb (isEmpty (currentRetrievedContext m));
     statsIsValid := isValid (validatePrompt m (lastBuiltPrompt m)) |}.

(** The calls a client of the manager makes. *)
Inductive Call :=
  | CallSetTemplate (template : string)
  | CallUserText (userText : string)
  | CallContext (context : string)
  | CallGetPrompt
  | CallReset
  | CallImport (d : TemplateData).

Definition perform (m : Manager) (c : Call) : Manager :=
  match c with
  | CallSetTemplate template =>
      match setBaseTemplate m template with inl _ => m | inr m' => m' end
  | CallUserText userText => updateUserText m userText
  | CallContext context => updateRetrievedContext m context
  | CallGetPrompt => fst (getCurrentPrompt m)
  | CallReset => reset m
  | CallImport d => fst (importTemplate m d)
  end.

Definition performAll (m : Manager) (calls : list Call) : Manager :=
  fold_left perform calls m.

End SystemPromptManager.

(** * Vocabulary of the statements

    Predicates the properties are phrased with, and the sample data of the
    closed examples. *)

Module Statements.
Import JsString Regex SmartContentProcessor.

(** A chunk whose text lies inside [big]. *)
Definition within (small big : string) : Prop :=
  exists pre post, big = pre +:+ small +:+ post.

(** The relevance of a chunk is a score between 0 and 1. *)
Definition inRange (c : Chunk) : Prop := (0 <= relevance c <= 1)%Q.

(** Two scored sections, as [chunkContent] hands them to [addOverlap]. *)
Definition costsChunk : Chunk :=
  mkChunk "Costs fell." (3 # 10) (Some section) None None.

Definition sampleChunks : list Chunk :=
  [ mkChunk "Revenue rose." (6 # 10) (Some section) None None; costsChunk ].

(** More than [maxChunkSize] letters without any business word: no section
    survives [splitBySections]. *)
Fixpoint repeatChar (n : nat) (c : ascii) : string :=
  match n with
  | O => ""
  | S n' => String c (repeatChar n' c)
  end.

(** A list of scores from the highest to the lowest. *)
Definition descending (scores : list Q) : Prop :=
  StronglySorted (fun a b => (b <= a)%Q) scores.

(** Every word of the query is shorter than three characters. *)
Definition allShort (query : string) : bool :=
  forallb (fun word => jsLength word <? 3) (split reSpaces (toLowerCase query)).

(** The chunk that [splitByParagraphs] makes of a piece of text: scored
    without the query and marked as a paragraph. *)
Definition unscoredParagraph (c : Chunk) : Prop :=
  relevance c = 1 # 2 /\ type c = Some paragraph.

(** The characters of the original texts of a list of chunks. *)
Definition sumLengths (chunks : list Chunk) : Z :=
  fold_right (fun c total => jsLength (content c) + total) 0 chunks.

(** A processor with a small [maxChunkSize], for closed examples. *)
Definition smallProcessor : Processor := {| maxChunkSize := 20; overlapSize := 5 |}.

(** The closed examples of the cache use the text itself as its digest and
    count every entry as one character long; no property below depends on
    the digest or on the size. *)
Definition plainKey (s : string) : string := s.

Definition unitSize (d : ContentCache.CacheData string) : Z := 1.

(** The cache after one successful [cacheContent] at time 1000 into the empty
    cache; the entry expires at [1000 + day]. *)
Definition storedOnce : ContentCache.Cache string :=
  fst (ContentCache.cacheContent plainKey unitSize ContentCache.emptyCache
         "report" "revenue" "summary" [] 1000 false false).

(** The in-memory tier holds no more entries than [maxMemorySize], or one
    where [maxMemorySize] is 0. *)
Definition memoryBounded {Payload : Type} (c : ContentCache.Cache Payload) : Prop :=
  (List.length (ContentCache.memoryCache c)
   <= Nat.max (ContentCache.maxMemorySize c) 1)%nat.

(** What every run of the cache keeps: the bound of the in-memory tier, the
    [maxMemorySize] of the constructor, and counters that do not go below 0. *)
Definition tidy {Payload : Type} (c : ContentCache.Cache Payload) : Prop :=
  memoryBounded c /\ ContentCache.maxMemorySize c = 100%nat /\
  0 <= ContentCache.hits (ContentCache.cacheStats c) /\
  0 <= ContentCache.misses (ContentCache.cacheStats c).

(** A file of the cache directory that a lookup at time [now] rejects: it
    does not parse, or its entry is not valid any more. *)
Definition unusable {Payload : Type} (f : ContentCache.DiskFile Payload) (now : Z) : bool :=
  match f with
  | ContentCache.Corrupt => true
  | ContentCache.Parsed d => negb (ContentCache.isCacheValid d now)
  end.

(** The cache after hundred entries were stored, for the contents ["a"],
    ["aa"], and so on: the in-memory tier is full. *)
Definition filledCache : ContentCache.Cache string :=
  fold_left
    (fun c n => fst (ContentCache.cacheContent plainKey unitSize c (repeatChar n "a") ""
                       "summary" [] 1000 false false))
    (seq 1 100) ContentCache.emptyCache.

(** The entry of [filledCache] that was stored first, and the index that
    [storedOnce] has written. *)
Definition oldestEntry : ContentCache.CacheData string :=
  {| ContentCache.content := "summary";
     ContentCache.metadata :=
       Some {| ContentCache.extra := [];
               ContentCache.originalLength := 1;
               ContentCache.query := "";
               ContentCache.timestamp := 1000;
               ContentCache.expiresAt := Some (1000 + ContentCache.day) |} |}.

Definition storedIndex : gmap string ContentCache.IndexEntry :=
  <[ "report|revenue" :=
       ContentCache.mkIndexEntry 1000 (Some (1000 + ContentCache.day)) 6 "revenue" 1 ]> ∅.

(** A cache directory with one file that does not parse. *)
Definition brokenCache : ContentCache.Cache string :=
  ContentCache.construct (<[ "report|revenue" := ContentCache.Corrupt ]> ∅) None.

(** The outcome counters meet the requirements of the tier [regular]: at
    least 50 outcomes, at least nine successes in ten. *)
Definition meets (successes errors : N) : bool :=
  ((50 <=? successes + errors) && (9 * (successes + errors) <=? 10 * successes))%N.

(** Index of the first outcome of a run after which the counters, starting
    from [successes] and [errors], meet the requirements. *)
Fixpoint firstDueFrom (successes errors : N) (outcomes : list (bool * Z)) : option nat :=
  match outcomes with
  | [] => None
  | o :: rest =>
      let successes' := if fst o then (successes + 1)%N else successes in
      let errors' := if fst o then errors else (errors + 1)%N in
      if meets successes' errors' then Some O
      else option_map S (firstDueFrom successes' errors' rest)
  end.

Definition firstDue (user : AdaptiveRateLimiter.User) (outcomes : list (bool * Z))
  : option nat :=
  firstDueFrom (AdaptiveRateLimiter.successCount user)
               (AdaptiveRateLimiter.errorCount user) outcomes.

(** A limiter that knows one user, with the health snapshot of a start at
    time 0. *)
Definition limiterWith (userId : string) (user : AdaptiveRateLimiter.User)
  : AdaptiveRateLimiter.Limiter :=
  {| AdaptiveRateLimiter.userLimits := {[ userId := user ]};
     AdaptiveRateLimiter.apiHealth := AdaptiveRateLimiter.apiHealth
                                        (AdaptiveRateLimiter.emptyLimiter 0);
     AdaptiveRateLimiter.savedData := None |}.

(** Fifty outcomes at time 1000, the first 45 of them successes. *)
Definition fortyFiveOfFifty : list (bool * Z) :=
  repeat (true, 1000) 45 ++ repeat (false, 1000) 5.

(** Number of successes in a run of outcomes. *)
Definition successes (outcomes : list (bool * Z)) : nat :=
  List.length (List.filter fst outcomes).

(** A tier below [enterprise], or no record at all. *)
Definition belowEnterprise (t : option AdaptiveRateLimiter.Tier) : Prop :=
  match t with
  | Some AdaptiveRateLimiter.enterprise => False
  | _ => True
  end.

(** The outcome counters show poor performance: at least 100 outcomes and
    fewer than seven successes in ten. *)
Definition poor (successes errors : N) : bool :=
  ((100 <=? successes + errors) && (10 * successes <? 7 * (successes + errors)))%N.

(** The tier after a demotion. *)
Definition demoted (t : AdaptiveRateLimiter.Tier) : AdaptiveRateLimiter.Tier :=
  match t with
  | AdaptiveRateLimiter.power => AdaptiveRateLimiter.regular
  | _ => AdaptiveRateLimiter.newUser
  end.

(** A user of the tier [enterprise] with 60 successes in 100 outcomes. *)
Definition failingEnterprise : AdaptiveRateLimiter.User :=
  {| AdaptiveRateLimiter.tier := AdaptiveRateLimiter.enterprise;
     AdaptiveRateLimiter.requests := 0;
     AdaptiveRateLimiter.lastRequest := 0;
     AdaptiveRateLimiter.successCount := 60;
     AdaptiveRateLimiter.errorCount := 40;
     AdaptiveRateLimiter.upgradeEligible := false |}.

(** The user record after the first contact of a new user, as the request
    handlers leave it: one error and nothing else. *)
Definition firstContactUser : AdaptiveRateLimiter.User :=
  {| AdaptiveRateLimiter.tier := AdaptiveRateLimiter.newUser;
     AdaptiveRateLimiter.requests := 0;
     AdaptiveRateLimiter.lastRequest := 0;
     AdaptiveRateLimiter.successCount := 0;
     AdaptiveRateLimiter.errorCount := 1;
     AdaptiveRateLimiter.upgradeEligible := false |}.

(** A user in the middle of a window, and one who has used it up. *)
Definition busyUser (count : Z) : AdaptiveRateLimiter.User :=
  {| AdaptiveRateLimiter.tier := AdaptiveRateLimiter.newUser;
     AdaptiveRateLimiter.requests := count;
     AdaptiveRateLimiter.lastRequest := 1000;
     AdaptiveRateLimiter.successCount := 1;
     AdaptiveRateLimiter.errorCount := 0;
     AdaptiveRateLimiter.upgradeEligible := false |}.

(** A limiter whose health average has dropped to one half. *)
Definition strugglingLimiter : AdaptiveRateLimiter.Limiter :=
  {| AdaptiveRateLimiter.userLimits := {[ "u1" := busyUser 1 ]};
     AdaptiveRateLimiter.apiHealth :=
       {| AdaptiveRateLimiter.successRate := 1 # 2;
          AdaptiveRateLimiter.apiErrorCount := 3;
          AdaptiveRateLimiter.totalRequests := 7;
          AdaptiveRateLimiter.lastReset := 0 |};
     AdaptiveRateLimiter.savedData := None |}.

(** A text without white space at its start; a text that [trim] leaves as
    it is. *)
Definition startsClean (s : string) : Prop :=
  match s with
  | EmptyString => True
  | String c _ => isSpace c = false
  end.

Definition trimmed (s : string) : Prop := trim s = s.

(** What every run of the prompt manager keeps: the template holds the
    user-text placeholder, both inputs are trimmed, and the last built prompt
    is empty or built from the current template and inputs. *)
Definition wellFormed (m : SystemPromptManager.Manager) : Prop :=
  includes (SystemPromptManager.baseTemplate m) "{{USER_TEXT}}" = true /\
  trimmed (SystemPromptManager.currentUserText m) /\
  trimmed (SystemPromptManager.currentRetrievedContext m) /\
  (SystemPromptManager.lastBuiltPrompt m = "" \/
   SystemPromptManager.lastBuiltPrompt m
   = SystemPromptManager.buildPrompt (SystemPromptManager.baseTemplate m)
       (SystemPromptManager.currentUserText m)
       (SystemPromptManager.currentRetrievedContext m)).

(** A prompt manager with the given inputs. *)
Definition managerWith (userText context : string) : SystemPromptManager.Manager :=
  {| SystemPromptManager.baseTemplate := "{{RETRIEVED_CONTEXT}} {{USER_TEXT}}";
     SystemPromptManager.currentUserText := userText;
     SystemPromptManager.currentRetrievedContext := context;
     SystemPromptManager.lastBuiltPrompt := "" |}.

End Statements.

(** * Properties of the chunker *)

Module ChunkerProperties.
Import JsString Regex SmartContentProcessor Statements.

Lemma append_cons (x : ascii) (a b : string) : String x a +:+ b = String x (a +:+ b).
Proof. reflexivity. Qed.

Lemma append_assoc (a b c : string) : (a +:+ b) +:+ c = a +:+ (b +:+ c).
Proof.
  induction a as [|x a IH]; [reflexivity|].
  now rewrite !append_cons, IH.
Qed.

Lemma append_empty_r (a : string) : a +:+ "" = a.
Proof.
  induction a as [|x a IH]; [reflexivity|].
  now rewrite append_cons, IH.
Qed.

Lemma jsLength_append (a b : string) : jsLength (a +:+ b) = jsLength a + jsLength b.
Proof.
  unfold jsLength. induction a as [|x a IH].
  - change ("" +:+ b) with b. simpl. lia.
  - rewrite append_cons. simpl String.length. rewrite !Nat2Z.inj_succ. lia.
Qed.

Lemma jsLength_nonneg (a : string) : 0 <= jsLength a.
Proof. unfold jsLength. lia. Qed.

Lemma within_length (small big : string) :
  within small big -> jsLength small <= jsLength big.
Proof.
  intros (pre & post & ->). rewrite !jsLength_append.
  pose proof (jsLength_nonneg pre). pose proof (jsLength_nonneg post). lia.
Qed.

Lemma within_refl (s : string) : within s s.
Proof. exists "", "". change ("" +:+ s +:+ "") with (s +:+ ""). now rewrite append_empty_r. Qed.

Lemma within_prefixed (pre s t : string) : within s t -> within s (pre +:+ t).
Proof.
  intros (a & b & ->). exists (pre +:+ a), b. now rewrite append_assoc.
Qed.

Lemma within_suffixed (post s t : string) : within s t -> within s (t +:+ post).
Proof.
  intros (a & b & ->). exists a, (b +:+ post). now rewrite !append_assoc.
Qed.

(** What the body of the loop of [addOverlap] does to one chunk. *)
Lemma enhance_frame (p : Processor) (prev next : option Chunk) (c : Chunk) :
  relevance (enhance p prev c next) = relevance c /\
  type (enhance p prev c next) = type c /\
  originalLength (enhance p prev c next) = Some (jsLength (content c)) /\
  enhancedLength (enhance p prev c next)
    = Some (jsLength (content (enhance p prev c next))) /\
  within (content c) (content (enhance p prev c next)).
Proof.
  repeat split.
  unfold enhance; cbn [content].
  destruct prev as [pc|], next as [nc|].
  - apply within_suffixed. rewrite <- !append_assoc. apply within_prefixed, within_refl.
  - rewrite <- !append_assoc. apply within_prefixed, within_refl.
  - apply within_suffixed, within_refl.
  - apply within_refl.
Qed.

Lemma overlapLoop_lookup (p : Processor) (chunks : list Chunk) :
  forall (prev : option Chunk) (i : nat) (c : Chunk),
    chunks !! i = Some c ->
    exists pv nx, overlapLoop p prev chunks !! i = Some (enhance p pv c nx).
Proof.
  induction chunks as [|d rest IH]; intros prev [|i] c H; simpl in *; try discriminate.
  - injection H as ->. eauto.
  - apply IH, H.
Qed.

Lemma overlapLoop_length (p : Processor) (chunks : list Chunk) :
  forall prev, List.length (overlapLoop p prev chunks) = List.length chunks.
Proof. induction chunks as [|d rest IH]; intros prev; simpl; [reflexivity | now rewrite IH]. Qed.

(** ** Relevance stays between 0 and 1 *)

Lemma calculateRelevance_range (content query : string) :
  (0 <= calculateRelevance content query <= 1)%Q.
Proof.
  unfold calculateRelevance.
  destruct (String.eqb query "").
  - split; discriminate.
  - destruct (fold_left _ _ _) as [score exactMatches].
    split.
    + apply Q.min_glb; [discriminate | apply Q.le_max_l].
    + apply Q.le_min_l.
Qed.

Lemma paragraphChunk_inRange (s : string) : inRange (paragraphChunk s).
Proof. apply calculateRelevance_range. Qed.

Lemma packStep_inRange (p : Processor) (acc : list Chunk * string) (par : string) :
  Forall inRange (fst acc) -> Forall inRange (fst (packStep p acc par)).
Proof.
  destruct acc as [chunks cur]; unfold packStep; simpl. intros H.
  destruct (_ <=? _); simpl; [exact H|].
  destruct (String.eqb cur ""); [exact H|].
  apply Forall_app; split; [exact H|]. constructor; [apply paragraphChunk_inRange | constructor].
Qed.

Lemma pack_inRange (p : Processor) (pars : list string) :
  forall acc, Forall inRange (fst acc) ->
              Forall inRange (fst (fold_left (packStep p) pars acc)).
Proof.
  induction pars as [|par pars IH]; intros acc H; simpl; [exact H|].
  apply IH, packStep_inRange, H.
Qed.

Lemma splitByParagraphs_inRange (p : Processor) (s : string) :
  Forall inRange (splitByParagraphs p s).
Proof.
  unfold splitByParagraphs.
  pose proof (pack_inRange p (split reBlankLine s) ([], "")) as H.
  destruct (fold_left _ _ _) as [chunks cur]. simpl in H.
  specialize (H (List.Forall_nil _)).
  destruct (String.eqb _ _); [exact H|].
  apply Forall_app; split; [exact H|]. constructor; [apply paragraphChunk_inRange | constructor].
Qed.

Lemma sectionChunks_inRange (p : Processor) (query sec : string) :
  Forall inRange (sectionChunks p query sec).
Proof.
  unfold sectionChunks. destruct (_ <=? _).
  - constructor; [apply calculateRelevance_range | constructor].
  - pose proof (splitByParagraphs_inRange p sec) as H.
    induction H as [|c l Hc Hl IH]; simpl; constructor; [exact Hc | exact IH].
Qed.

Lemma candidateChunks_inRange (p : Processor) (content query : string) :
  Forall inRange (candidateChunks p content query).
Proof.
  unfold candidateChunks.
  induction (splitBySections content) as [|sec secs IH]; simpl; [constructor|].
  apply Forall_app; split; [apply sectionChunks_inRange | exact IH].
Qed.

Lemma insertChunk_inRange (c : Chunk) (l : list Chunk) :
  inRange c -> Forall inRange l -> Forall inRange (insertChunk c l).
Proof.
  intros Hc Hl. induction Hl as [|d l Hd Hl IH]; simpl.
  - constructor; [exact Hc | constructor].
  - destruct (Qlt_bool _ _); constructor; auto.
Qed.

Lemma sortChunks_inRange (l : list Chunk) :
  Forall inRange l -> Forall inRange (sortChunks l).
Proof.
  intros H. induction H as [|c l Hc Hl IH]; simpl; [constructor|].
  apply insertChunk_inRange; assumption.
Qed.

Lemma insertChunk_length (c : Chunk) (l : list Chunk) :
  List.length (insertChunk c l) = S (List.length l).
Proof.
  induction l as [|d l IH]; simpl; [reflexivity|].
  destruct (Qlt_bool _ _); simpl; [now rewrite IH | reflexivity].
Qed.

Lemma sortChunks_length (l : list Chunk) : List.length (sortChunks l) = List.length l.
Proof.
  induction l as [|c l IH]; simpl; [reflexivity|].
  now rewrite insertChunk_length, IH.
Qed.

Lemma above_threshold (q : Q) : (0 <= q)%Q -> Qlt_bool (-1 # 2) q = true.
Proof.
  intros H. unfold Qlt_bool. destruct (Qle_bool q (-1 # 2)) eqn:E; [|reflexivity].
  apply Qle_bool_iff in E. exfalso.
  assert (0 <= -1 # 2)%Q as A by (eapply Qle_trans; eassumption).
  now apply A.
Qed.

Lemma keepRelevant_inRange (l : list Chunk) : Forall inRange l -> keepRelevant l = l.
Proof.
  intros H. induction H as [|c l Hc Hl IH]; simpl; [reflexivity|].
  unfold keepRelevant in *. simpl.
  rewrite above_threshold by apply Hc. now rewrite IH.
Qed.

(** ** The claims about the chunker *)

(** C6. Content that is no longer than [maxChunkSize] comes back as
    exactly one chunk, whose [content] is the input and whose relevance is
    the score of the input against the query. *)
Theorem chunkContent_short_single (p : Processor) (content query : string)
  (Hshort : jsLength content <= maxChunkSize p) :
  exists c : Chunk,
    chunkContent p content query = [c] /\
    SmartContentProcessor.content c = content /\
    relevance c = calculateRelevance content query.
Proof.
  unfold chunkContent, chunkContentTraced.
  apply Z.leb_le in Hshort. rewrite Hshort. simpl.
  eexists. split; [reflexivity|]. split; reflexivity.
Qed.

Lemma chunkContent_short_single_witness :
  jsLength "Revenue grew in the quarter" <= maxChunkSize defaultProcessor /\
  exists c : Chunk,
    chunkContent defaultProcessor "Revenue grew in the quarter" "revenue" = [c] /\
    SmartContentProcessor.content c = "Revenue grew in the quarter" /\
    relevance c = calculateRelevance "Revenue grew in the quarter" "revenue".
Proof.
  split; [vm_compute; discriminate|].
  apply (chunkContent_short_single defaultProcessor "Revenue grew in the quarter" "revenue").
  vm_compute; discriminate.
Defined.

(** C3, as the code has it. Empty content is within every non-negative
    [maxChunkSize], so it comes back as one chunk with empty [content], not
    as the empty list. *)
Theorem chunkContent_empty_single (p : Processor) (query : string)
  (Hsize : 0 <= maxChunkSize p) :
  chunkContent p "" query =
    [ {| content := ""; relevance := calculateRelevance "" query; type := None;
         originalLength := None; enhancedLength := None |} ].
Proof.
  unfold chunkContent, chunkContentTraced.
  change (jsLength "") with 0. apply Z.leb_le in Hsize. now rewrite Hsize.
Qed.

Lemma chunkContent_empty_single_witness :
  0 <= maxChunkSize defaultProcessor /\
  chunkContent defaultProcessor "" "revenue growth" =
    [ {| content := ""; relevance := calculateRelevance "" "revenue growth";
         type := None; originalLength := None; enhancedLength := None |} ].
Proof.
  split; [vm_compute; discriminate|].
  apply (chunkContent_empty_single defaultProcessor "revenue growth").
  vm_compute; discriminate.
Defined.

(** C3, as stated, fails: the result for empty content is not the empty
    list. *)
Lemma chunkContent_empty_not_nil :
  chunkContent defaultProcessor "" "revenue growth" <> [].
Proof. vm_compute. discriminate. Qed.

(** C7, as the code has it. [addOverlap] keeps the number of chunks, and
    for the chunk at every index it keeps [relevance] and [type] and keeps the
    original text inside the new [content]. A list of at most one chunk is
    returned as it is; in a longer list [originalLength] is the length of the
    original text, [enhancedLength] the length of the new one, and the second
    is at least the first. *)
Theorem addOverlap_frame (p : Processor) (chunks : list Chunk) (i : nat) (c : Chunk)
  (Hi : chunks !! i = Some c) :
  List.length (addOverlap p chunks) = List.length chunks /\
  exists c' : Chunk,
    addOverlap p chunks !! i = Some c' /\
    relevance c' = relevance c /\
    type c' = type c /\
    within (content c) (content c') /\
    if (List.length chunks <=? 1)%nat then c' = c
    else originalLength c' = Some (jsLength (content c)) /\
         enhancedLength c' = Some (jsLength (content c')) /\
         exists a b : Z, originalLength c' = Some a /\ enhancedLength c' = Some b /\ a <= b.
Proof.
  unfold addOverlap. destruct (List.length chunks <=? 1)%nat eqn:E.
  - split; [reflexivity|]. exists c. repeat split; try assumption. apply within_refl.
  - split; [apply overlapLoop_length|].
    destruct (overlapLoop_lookup p chunks None i c Hi) as (pv & nx & Hl).
    destruct (enhance_frame p pv nx c) as (Hr & Ht & Ho & He & Hw).
    exists (enhance p pv c nx). repeat split; try assumption.
    exists (jsLength (content c)), (jsLength (content (enhance p pv c nx))).
    repeat split; try assumption. now apply within_length.
Qed.

Lemma addOverlap_frame_witness :
  sampleChunks !! 1%nat = Some costsChunk /\
  List.length (addOverlap defaultProcessor sampleChunks) = List.length sampleChunks /\
  exists c' : Chunk,
    addOverlap defaultProcessor sampleChunks !! 1%nat = Some c' /\
    relevance c' = relevance costsChunk /\
    type c' = type costsChunk /\
    within (content costsChunk) (content c') /\
    if (List.length sampleChunks <=? 1)%nat then c' = costsChunk
    else originalLength c' = Some (jsLength (content costsChunk)) /\
         enhancedLength c' = Some (jsLength (content c')) /\
         exists a b : Z, originalLength c' = Some a /\ enhancedLength c' = Some b /\ a <= b.
Proof.
  split; [reflexivity|].
  apply (addOverlap_frame defaultProcessor sampleChunks 1 costsChunk).
  reflexivity.
Defined.

(** C7, as stated, fails on a list of one chunk: the chunk comes back
    without [originalLength] and [enhancedLength]. *)
Lemma addOverlap_single_sets_no_length :
  map originalLength
      (addOverlap defaultProcessor [mkChunk "Revenue rose." (6 # 10) None None None])
    = [None] /\
  map enhancedLength
      (addOverlap defaultProcessor [mkChunk "Revenue rose." (6 # 10) None None None])
    = [None].
Proof. split; reflexivity. Qed.

(** C10, as the code has it. The relevance is 0.5 for the empty query
    and lies between 0 and 1 for every query; so the filter
    [relevance > -0.5] keeps every chunk, and the fallback [return] is only
    taken when there is no chunk at all, where it returns the empty list. *)
Theorem relevance_bounded_filter_keeps_all (p : Processor) (content query : string) :
  calculateRelevance content "" = 1 # 2 /\
  (0 <= calculateRelevance content query <= 1)%Q /\
  filteredChunks p content query = sortedChunks p content query /\
  match fst (chunkContentTraced p content query) with
  | TopTwoFallback =>
      candidateChunks p content query = [] /\ chunkContent p content query = []
  | _ => True
  end.
Proof.
  assert (filteredChunks p content query = sortedChunks p content query) as Hkeep.
  { unfold filteredChunks, sortedChunks.
    apply keepRelevant_inRange, sortChunks_inRange, candidateChunks_inRange. }
  split; [reflexivity|]. split; [apply calculateRelevance_range|]. split; [exact Hkeep|].
  unfold chunkContent, chunkContentTraced.
  destruct (_ <=? _); [exact I|].
  rewrite Hkeep.
  destruct (List.length (sortedChunks p content query) =? 0)%nat eqn:E; [|exact I].
  cbn [fst snd]. apply Nat.eqb_eq in E.
  assert (candidateChunks p content query = []) as Hnil.
  { unfold sortedChunks in E. rewrite sortChunks_length in E.
    now destruct (candidateChunks p content query). }
  split; [exact Hnil|].
  unfold sortedChunks. rewrite Hnil. reflexivity.
Qed.

(** C10, as stated, fails in its last part: the fallback [return] is
    reached. *)
Lemma fallback_reached :
  fst (chunkContentTraced defaultProcessor
         (repeatChar (Z.to_nat 25001) "a"%char) "revenue growth") = TopTwoFallback.
Proof. vm_compute. reflexivity. Qed.

End ChunkerProperties.

(** * Properties of the content cache *)

Module CacheProperties.
Import JsString ContentCache Statements.

Section Generic.

Context {Payload : Type}.
Variable sha256hex : string -> string.
Variable jsonLength : CacheData Payload -> Z.

Lemma mapGet_mapSet (m : list (string * CacheData Payload)) (key : string)
    (v : CacheData Payload) :
  mapGet (mapSet m key v) key = Some v.
Proof.
  induction m as [|[k w] rest IH]; simpl.
  - now rewrite String.eqb_refl.
  - destruct (String.eqb k key) eqn:E; simpl; rewrite E; [reflexivity | exact IH].
Qed.

Lemma addToMemoryCache_get (c : Cache Payload) (key : string) (v : CacheData Payload) :
  mapGet (memoryCache (addToMemoryCache c key v)) key = Some v.
Proof. unfold addToMemoryCache; simpl. apply mapGet_mapSet. Qed.

(** The entry a successful [cacheContent] builds. *)
Lemma cacheContent_memory (c : Cache Payload) (content query : string) (payload : Payload)
    (extraMetadata : list (string * string)) (now : Z) (indexWriteFails : bool) :
  mapGet
    (memoryCache
       (fst (cacheContent sha256hex jsonLength c content query payload extraMetadata
               now false indexWriteFails)))
    (generateCacheKey sha256hex content query)
  = Some {| content := payload;
            metadata := Some {| extra := extraMetadata;
                                originalLength := jsLength content;
                                query := query;
                                timestamp := now;
                                expiresAt := Some (now + day) |} |}.
Proof.
  unfold cacheContent; cbn [fst withStats memoryCache].
  unfold updateCacheIndex. destruct indexWriteFails; cbn [memoryCache];
    apply addToMemoryCache_get.
Qed.

(** The path through the persisted tier does look at the clock: an entry
    that is only on disk is a miss from [expiresAt] on. *)
Lemma disk_entry_expires (c : Cache Payload) (content query : string)
    (cached : CacheData Payload) (md : Metadata) (e now : Z) :
  mapGet (memoryCache c) (generateCacheKey sha256hex content query) = None ->
  files c !! generateCacheKey sha256hex content query = Some (Parsed cached) ->
  metadata cached = Some md -> expiresAt md = Some e -> e <= now ->
  snd (getCachedContent sha256hex c content query now) = None.
Proof.
  intros Hmem Hdisk Hmd He Hle. unfold getCachedContent.
  rewrite Hmem, Hdisk. unfold isCacheValid. rewrite Hmd, He.
  destruct (e =? 0); [reflexivity|].
  assert ((now <? e) = false) as -> by (apply Z.ltb_ge; exact Hle). reflexivity.
Qed.

(** Straight after a successful [cacheContent], [getCachedContent] for the
    same content and query answers from the in-memory tier with the stored
    entry whatever the clock [later] says, also at and after the entry's
    [expiresAt = now + day]: the in-memory path never calls [isCacheValid]. *)
Lemma memory_hit_ignores_expiry (c : Cache Payload) (content query : string)
    (payload : Payload) (extraMetadata : list (string * string)) (now later : Z)
    (indexWriteFails : bool) :
  snd (getCachedContent sha256hex
         (fst (cacheContent sha256hex jsonLength c content query payload extraMetadata
                 now false indexWriteFails))
         content query later)
  = Some {| content := payload;
            metadata := Some {| extra := extraMetadata;
                                originalLength := jsLength content;
                                query := query;
                                timestamp := now;
                                expiresAt := Some (now + day) |} |}.
Proof.
  unfold getCachedContent. now rewrite cacheContent_memory.
Qed.

(** C4, as the code has it. When the write of the entry fails,
    [cacheContent] answers [false] and leaves both tiers as they were; for a
    pair that was in neither tier the next [getCachedContent] is a miss. *)
Theorem failed_write_caches_nothing (c : Cache Payload) (content query : string)
    (payload : Payload) (extraMetadata : list (string * string)) (now later : Z)
    (indexWriteFails : bool)
    (Hmem : mapGet (memoryCache c) (generateCacheKey sha256hex content query) = None)
    (Hdisk : files c !! generateCacheKey sha256hex content query = None) :
  cacheContent sha256hex jsonLength c content query payload extraMetadata now true
    indexWriteFails = (c, false) /\
  snd (getCachedContent sha256hex
         (fst (cacheContent sha256hex jsonLength c content query payload extraMetadata
                 now true indexWriteFails))
         content query later) = None.
Proof.
  split; [reflexivity|].
  unfold cacheContent; cbn [fst]. unfold getCachedContent. now rewrite Hmem, Hdisk.
Qed.

End Generic.

(** C1, the code at the failing input. An entry stored at time 1000
    expires at [1000 + day]. At exactly that time [isCacheValid] calls it
    expired, and [getCachedContent] still answers with it, from the in-memory
    tier, where the claim wants a miss. *)
Theorem expired_entry_served_from_memory :
  exists entry : CacheData string,
    snd (getCachedContent plainKey storedOnce "report" "revenue" (1000 + day))
      = Some entry /\
    content entry = "summary" /\
    (expiresAt <$> metadata entry) = Some (Some (1000 + day)) /\
    isCacheValid entry (1000 + day) = false /\
    mapGet (memoryCache storedOnce) (generateCacheKey plainKey "report" "revenue")
      = Some entry.
Proof.
  eexists. split; [reflexivity|]. repeat split.
Qed.

Lemma failed_write_caches_nothing_witness :
  mapGet (memoryCache (@emptyCache string)) (generateCacheKey plainKey "report" "revenue")
    = None /\
  files (@emptyCache string) !! generateCacheKey plainKey "report" "revenue" = None /\
  cacheContent plainKey unitSize emptyCache "report" "revenue" "summary" [] 1000 true false
    = (emptyCache, false) /\
  snd (getCachedContent plainKey
         (fst (cacheContent plainKey unitSize emptyCache "report" "revenue" "summary" []
                 1000 true false))
         "report" "revenue" 2000) = None.
Proof.
  split; [reflexivity|]. split; [reflexivity|].
  apply (failed_write_caches_nothing plainKey unitSize emptyCache "report" "revenue"
           "summary" [] 1000 2000 false); reflexivity.
Defined.

(** C4, as stated, fails: after a failed write the entry is not in the
    in-memory tier, and a lookup one second later, far inside the 24 hours, is
    a miss. *)
Lemma failed_write_then_miss :
  snd (cacheContent plainKey unitSize emptyCache "report" "revenue" "summary" []
         1000 true false) = false /\
  memoryCache (fst (cacheContent plainKey unitSize emptyCache "report" "revenue" "summary"
                      [] 1000 true false)) = [] /\
  snd (getCachedContent plainKey
         (fst (cacheContent plainKey unitSize emptyCache "report" "revenue" "summary" []
                 1000 true false))
         "report" "revenue" 2000) = None.
Proof. repeat split. Qed.

End CacheProperties.

(** * Properties of the rate limiter *)

Module LimiterProperties.
Import JsString AdaptiveRateLimiter Statements.

Lemma updateUserTier_frame (user : User) :
  requests (updateUserTier user) = requests user /\
  lastRequest (updateUserTier user) = lastRequest user /\
  successCount (updateUserTier user) = successCount user /\
  errorCount (updateUserTier user) = errorCount user.
Proof.
  unfold updateUserTier.
  repeat match goal with |- context [if ?b then _ else _] => destruct b end;
    repeat split.
Qed.

Lemma countOutcome_user (user : User) (h : ApiHealth) (success : bool) :
  requests (fst (countOutcome user h success)) = requests user /\
  lastRequest (fst (countOutcome user h success)) = lastRequest user /\
  tier (fst (countOutcome user h success)) = tier user /\
  successCount (fst (countOutcome user h success))
    = (successCount user + (if success then 1 else 0))%N /\
  errorCount (fst (countOutcome user h success))
    = (errorCount user + (if success then 0 else 1))%N.
Proof. destruct success; cbn; repeat split; lia. Qed.

Lemma recordOn_users (l : Limiter) (userId : string) (user : User) (success : bool)
    (now : Z) :
  userLimits (recordOn l userId user success now) !! userId
  = Some (updateUserTier (fst (countOutcome user (apiHealth l) success))).
Proof.
  unfold recordOn. destruct (countOutcome user (apiHealth l) success) as [u h].
  cbn [userLimits fst]. apply lookup_insert_eq.
Qed.

Lemma recordOn_health (l : Limiter) (userId : string) (user : User) (success : bool)
    (now : Z) :
  apiHealth (recordOn l userId user success now)
  = updateApiHealth (snd (countOutcome user (apiHealth l) success)) now.
Proof.
  unfold recordOn. destruct (countOutcome user (apiHealth l) success) as [u h].
  reflexivity.
Qed.

(** The comparison of the quotient with 0.9 says what it should about the
    counters. *)
Lemma promotion_test (user : User) :
  (50 <=? Z.of_N (successCount user + errorCount user))
    && numGe (userSuccessRate user) (9 # 10)
  = meets (successCount user) (errorCount user).
Proof.
  unfold meets, userSuccessRate.
  destruct (successCount user + errorCount user)%N as [|total] eqn:E.
  - reflexivity.
  - unfold numGe, Qle_bool; cbn [Qnum Qden].
    apply eq_true_iff_eq.
    rewrite !andb_true_iff, !Z.leb_le, !N.leb_le. lia.
Qed.

Lemma numLt_numGe (x : option Q) :
  numGe x (9 # 10) = true -> numLt x (7 # 10) = false.
Proof.
  destruct x as [q|]; [|reflexivity]. unfold numGe, numLt, Qlt_bool.
  intros H. apply Qle_bool_iff in H.
  assert (Qle_bool (7 # 10) q = true) as ->; [|reflexivity].
  apply Qle_bool_iff. eapply Qle_trans; [|exact H]. discriminate.
Qed.

(** One pass of [updateUserTier] over a user of the tier [newUser]. *)
Lemma updateUserTier_newUser (user : User) :
  tier user = newUser ->
  tier (updateUserTier user)
  = if meets (successCount user) (errorCount user) then regular else newUser.
Proof.
  intros Hnew. rewrite <- promotion_test. unfold updateUserTier. rewrite Hnew.
  cbn [Tier_eqb]. rewrite andb_true_r.
  destruct ((50 <=? _) && numGe _ _) eqn:E.
  - cbn [tier withTier Tier_eqb negb].
    apply andb_true_iff in E as [_ E]. rewrite (numLt_numGe _ E).
    rewrite andb_false_r. reflexivity.
  - rewrite !andb_false_r. cbn [negb]. rewrite Hnew. cbn [Tier_eqb negb].
    rewrite andb_false_r. exact Hnew.
Qed.

Lemma recordAll_cons (l : Limiter) (userId : string) (o : bool * Z)
    (outcomes : list (bool * Z)) :
  recordAll l userId (o :: outcomes)
  = recordAll (recordRequest l userId (fst o) (snd o)) userId outcomes.
Proof. reflexivity. Qed.

(** One recorded outcome for a user of the tier [newUser]: the record stays,
    the counters move, and the tier is decided by the counters. *)
Lemma recordRequest_newUser (l : Limiter) (userId : string) (user : User)
    (success : bool) (now : Z) :
  userLimits l !! userId = Some user ->
  tier user = newUser ->
  exists user' : User,
    userLimits (recordRequest l userId success now) !! userId = Some user' /\
    successCount user' = (if success then (successCount user + 1)%N else successCount user) /\
    errorCount user' = (if success then errorCount user else (errorCount user + 1)%N) /\
    tier user' = if meets (successCount user') (errorCount user') then regular else newUser.
Proof.
  intros Huser Hnew.
  exists (updateUserTier (fst (countOutcome user (apiHealth l) success))).
  destruct (countOutcome_user user (apiHealth l) success) as (_ & _ & Ht & Hs & He).
  destruct (updateUserTier_frame (fst (countOutcome user (apiHealth l) success)))
    as (_ & _ & Hs' & He').
  split; [unfold recordRequest; rewrite Huser; apply recordOn_users|].
  split; [rewrite Hs', Hs; destruct success; lia|].
  split; [rewrite He', He; destruct success; lia|].
  rewrite updateUserTier_newUser by (now rewrite Ht). now rewrite Hs', He'.
Qed.

Lemma tierOf_lookup (l : Limiter) (userId : string) (user : User) :
  userLimits l !! userId = Some user -> tierOf l userId = Some (tier user).
Proof. intros H. unfold tierOf. now rewrite H. Qed.

(** Fifty outcomes with 45 successes, in whatever order: the requirements
    are first met with the last one. *)
Lemma firstDueFrom_fifty (outcomes : list (bool * Z)) :
  forall s e : N,
    outcomes <> [] ->
    (N.to_nat s + N.to_nat e + List.length outcomes = 50)%nat ->
    (N.to_nat s + successes outcomes = 45)%nat ->
    firstDueFrom s e outcomes = Some (List.length outcomes - 1)%nat.
Proof.
  induction outcomes as [|[b t] rest IH]; intros s e Hne Hlen Hsucc; [congruence|].
  cbn [firstDueFrom fst].
  set (s' := if b then (s + 1)%N else s).
  set (e' := if b then e else (e + 1)%N).
  assert (N.to_nat s' + N.to_nat e' + List.length rest = 50)%nat as Hlen'
    by (unfold s', e'; cbn [List.length] in Hlen; destruct b; lia).
  assert (N.to_nat s' + successes rest = 45)%nat as Hsucc'
    by (unfold s'; unfold successes in *; cbn [List.filter fst] in Hsucc;
        destruct b; cbn [List.length] in Hsucc; lia).
  destruct rest as [|o2 rest'].
  - assert (s' = 45%N) as -> by (unfold successes in Hsucc'; cbn in Hsucc'; lia).
    assert (e' = 5%N) as -> by (cbn in Hlen'; lia).
    reflexivity.
  - assert (meets s' e' = false) as ->.
    { unfold meets. apply andb_false_iff. left. apply N.leb_gt.
      cbn [List.length] in Hlen'. lia. }
    rewrite (IH s' e') by (congruence || assumption).
    cbn [option_map List.length]. f_equal. lia.
Qed.

(** The case the specification names, 45 successes among the first 50
    outcomes of a newly entered user: the requirements are first met with the
    50th outcome, index 49. *)
Lemma fifty_outcomes_first_due (outcomes : list (bool * Z)) :
  List.length outcomes = 50%nat ->
  successes outcomes = 45%nat ->
  firstDue freshUser outcomes = Some 49%nat.
Proof.
  intros Hlen Hsucc. unfold firstDue. cbn [successCount errorCount freshUser].
  rewrite (firstDueFrom_fifty outcomes 0 0).
  - now rewrite Hlen.
  - intros ->. discriminate.
  - now rewrite Hlen.
  - now rewrite Hsucc.
Qed.

(** ** The claims about the rate limiter *)

(** C8. For a user of the tier [newUser], the tier becomes [regular] with
    the first recorded outcome after which there are at least 50 outcomes and
    at least nine successes in ten, and it is [newUser] after every shorter
    run of outcomes. *)
Theorem promotion_at_first_due (l : Limiter) (userId : string) (user : User)
    (outcomes : list (bool * Z)) (n : nat)
    (Huser : userLimits l !! userId = Some user)
    (Hnew : tier user = newUser)
    (Hdue : firstDue user outcomes = Some n) :
  tierOf (recordAll l userId (take (S n) outcomes)) userId = Some regular /\
  forall k : nat, (k <= n)%nat ->
    tierOf (recordAll l userId (take k outcomes)) userId = Some newUser.
Proof.
  revert l user n Huser Hnew Hdue.
  induction outcomes as [|[success now] rest IH]; intros l user n Huser Hnew Hdue;
    [discriminate|].
  unfold firstDue in Hdue. cbn [firstDueFrom fst] in Hdue.
  destruct (recordRequest_newUser l userId user success now Huser Hnew)
    as (u1 & Hu1 & Hs & He & Ht).
  rewrite <- Hs, <- He in Hdue.
  pose proof (tierOf_lookup l userId user Huser) as Hstart. rewrite Hnew in Hstart.
  destruct (meets (successCount u1) (errorCount u1)) eqn:Em.
  - injection Hdue as <-. split.
    + change (take 1 ((success, now) :: rest)) with [(success, now)].
      rewrite recordAll_cons. cbn [recordAll fold_left fst snd].
      rewrite (tierOf_lookup _ _ _ Hu1). now rewrite Ht.
    + intros k Hk. assert (k = O) as -> by lia. exact Hstart.
  - destruct (firstDueFrom (successCount u1) (errorCount u1) rest) as [n'|] eqn:En;
      [|discriminate].
    injection Hdue as <-.
    destruct (IH (recordRequest l userId success now) u1 n' Hu1 Ht En) as [Hreg Hbefore].
    split.
    + change (take (S (S n')) ((success, now) :: rest))
        with ((success, now) :: take (S n') rest).
      rewrite recordAll_cons. exact Hreg.
    + intros [|k] Hk; [exact Hstart|].
      change (take (S k) ((success, now) :: rest)) with ((success, now) :: take k rest).
      rewrite recordAll_cons. apply Hbefore. lia.
Qed.

(** With 45 successes among 50 outcomes the promotion comes with the 50th
    outcome, index 49. *)
Lemma promotion_at_first_due_witness :
  userLimits (limiterWith "u1" freshUser) !! "u1" = Some freshUser /\
  tier freshUser = newUser /\
  firstDue freshUser fortyFiveOfFifty = Some 49%nat /\
  tierOf (recordAll (limiterWith "u1" freshUser) "u1" (take 50 fortyFiveOfFifty)) "u1"
    = Some regular /\
  forall k : nat, (k <= 49)%nat ->
    tierOf (recordAll (limiterWith "u1" freshUser) "u1" (take k fortyFiveOfFifty)) "u1"
      = Some newUser.
Proof.
  split; [reflexivity|]. split; [reflexivity|]. split; [reflexivity|].
  apply (promotion_at_first_due (limiterWith "u1" freshUser) "u1" freshUser
           fortyFiveOfFifty 49); reflexivity.
Defined.

(** The first check for an unknown user: the record is entered by
    [getUserLimit], and the read of [lastRequest] from the missing object
    throws. *)
Lemma isRequestAllowed_unknown_user (l : Limiter) (userId : string) (now healthNow : Z) :
  userLimits l !! userId = None ->
  snd (isRequestAllowed l userId now healthNow) = Threw /\
  userLimits (fst (isRequestAllowed l userId now healthNow)) !! userId = Some freshUser.
Proof.
  intros H. unfold isRequestAllowed, getUserLimit. rewrite H. cbn [fst snd userLimits].
  split; [reflexivity | apply lookup_insert_eq].
Qed.

(** C2, as the code has it. For a user with a record, the counter starts
    again from 0 when more than [window] milliseconds have passed since
    [lastRequest]. An allowed request counts one up and sets [lastRequest] to
    [now], inside the window too. A denied request leaves the counter and
    [lastRequest] alone and says how many whole seconds remain until
    [lastRequest + window]. *)
Theorem isRequestAllowed_window (l : Limiter) (userId : string) (user : User)
    (now healthNow : Z)
    (Huser : userLimits l !! userId = Some user) :
  let limit := limitOf (apiHealth l) user in
  let elapsed := window limit <? now - lastRequest user in
  let count := if elapsed then 0 else requests user in
  let start := if elapsed then now else lastRequest user in
  exists user' : User,
    userLimits (fst (isRequestAllowed l userId now healthNow)) !! userId = Some user' /\
    if count <? limitRequests limit
    then snd (isRequestAllowed l userId now healthNow)
           = Allowed (limitRequests limit - (count + 1)) /\
         requests user' = count + 1 /\
         lastRequest user' = now
    else snd (isRequestAllowed l userId now healthNow)
           = Denied (ceilSeconds (window limit - (now - start))) (start + window limit) /\
         requests user' = count /\
         lastRequest user' = start.
Proof.
  intros limit elapsed count start.
  unfold isRequestAllowed. rewrite Huser.
  assert (snd (getUserLimit l userId) = limit) as ->
    by (unfold getUserLimit; now rewrite Huser).
  fold elapsed.
  set (u := if elapsed then withWindow user 0 now else user).
  assert (requests u = count) as Hc by (unfold u, count; now destruct elapsed).
  assert (lastRequest u = start) as Hs by (unfold u, start; now destruct elapsed).
  rewrite Hc, Hs.
  destruct (count <? limitRequests limit); cbn [fst snd]; rewrite recordOn_users;
    eexists; (split; [reflexivity|]).
  - destruct (updateUserTier_frame
                (fst (countOutcome (withWindow u (count + 1) now) (apiHealth l) true)))
      as (Hr & Hl & _).
    destruct (countOutcome_user (withWindow u (count + 1) now) (apiHealth l) true)
      as (Hr' & Hl' & _).
    rewrite Hr, Hl, Hr', Hl'. repeat split.
  - destruct (updateUserTier_frame (fst (countOutcome u (apiHealth l) false)))
      as (Hr & Hl & _).
    destruct (countOutcome_user u (apiHealth l) false) as (Hr' & Hl' & _).
    rewrite Hr, Hl, Hr', Hl'. repeat split; assumption.
Qed.

Lemma isRequestAllowed_window_witness :
  userLimits (limiterWith "u1" (busyUser 1)) !! "u1" = Some (busyUser 1) /\
  exists user' : User,
    userLimits (fst (isRequestAllowed (limiterWith "u1" (busyUser 1)) "u1" 2000 2000))
      !! "u1" = Some user' /\
    snd (isRequestAllowed (limiterWith "u1" (busyUser 1)) "u1" 2000 2000) = Allowed 3 /\
    requests user' = 2 /\
    lastRequest user' = 2000.
Proof.
  split; [reflexivity|].
  exact (isRequestAllowed_window (limiterWith "u1" (busyUser 1)) "u1" (busyUser 1)
           2000 2000 eq_refl).
Defined.

(** C2, as stated, fails twice. A request allowed one second into the
    window moves [lastRequest] from 1000 to 2000; and a denial at that moment
    answers 59, the seconds left, where [window - (now - lastRequest)] is
    59000. *)
Lemma allowed_request_moves_window_start :
  lastRequest <$>
    (userLimits (fst (isRequestAllowed (limiterWith "u1" (busyUser 1)) "u1" 2000 2000))
       !! "u1") = Some 2000 /\
  lastRequest (busyUser 1) = 1000 /\
  2000 - lastRequest (busyUser 1) <= 60000 /\
  snd (isRequestAllowed (limiterWith "u1" (busyUser 5)) "u1" 2000 2000)
    = Denied 59 61000 /\
  60000 - (2000 - lastRequest (busyUser 5)) = 59000.
Proof. repeat split. vm_compute. discriminate. Qed.

(** C9, as the code has it. A recorded outcome for a user with a record
    counts one up in the user's success or error counter. When the hour of the
    health snapshot is not over, a success replaces the average by
    [average * 0.9 + 0.1] and a failure leaves it, a failure counts one up in
    the error counter of the snapshot, and both count one up in its total. When
    the hour is over the call ends with the fresh snapshot: average 1, both
    counters 0. *)
Theorem recordRequest_health (l : Limiter) (userId : string) (user : User)
    (success : bool) (now : Z)
    (Huser : userLimits l !! userId = Some user) :
  (exists user' : User,
     userLimits (recordRequest l userId success now) !! userId = Some user' /\
     successCount user' = (successCount user + (if success then 1 else 0))%N /\
     errorCount user' = (errorCount user + (if success then 0 else 1))%N) /\
  if 3600000 <? now - lastReset (apiHealth l)
  then apiHealth (recordRequest l userId success now)
       = {| successRate := 1; apiErrorCount := 0; totalRequests := 0; lastReset := now |}
  else successRate (apiHealth (recordRequest l userId success now))
       = (if success then successRate (apiHealth l) * (9 # 10) + (1 # 10)
          else successRate (apiHealth l))%Q /\
       apiErrorCount (apiHealth (recordRequest l userId success now))
       = apiErrorCount (apiHealth l) + (if success then 0 else 1) /\
       totalRequests (apiHealth (recordRequest l userId success now))
       = totalRequests (apiHealth l) + 1 /\
       lastReset (apiHealth (recordRequest l userId success now))
       = lastReset (apiHealth l).
Proof.
  unfold recordRequest. rewrite Huser. split.
  - rewrite recordOn_users. eexists. split; [reflexivity|].
    destruct (updateUserTier_frame (fst (countOutcome user (apiHealth l) success)))
      as (_ & _ & Hs & He).
    destruct (countOutcome_user user (apiHealth l) success) as (_ & _ & _ & Hs' & He').
    rewrite Hs, He, Hs', He'. split; reflexivity.
  - rewrite recordOn_health. unfold updateApiHealth.
    assert (lastReset (snd (countOutcome user (apiHealth l) success))
            = lastReset (apiHealth l)) as -> by (now destruct success).
    destruct (3600000 <? now - lastReset (apiHealth l)); [reflexivity|].
    destruct success; cbn; repeat split; lia.
Qed.

Lemma recordRequest_health_witness :
  userLimits strugglingLimiter !! "u1" = Some (busyUser 1) /\
  successRate (apiHealth (recordRequest strugglingLimiter "u1" true 5000))
    = ((1 # 2) * (9 # 10) + (1 # 10))%Q /\
  successRate (apiHealth (recordRequest strugglingLimiter "u1" false 5000)) = 1 # 2 /\
  apiErrorCount (apiHealth (recordRequest strugglingLimiter "u1" false 5000)) = 4.
Proof.
  split; [reflexivity|].
  pose proof (recordRequest_health strugglingLimiter "u1" (busyUser 1) true 5000 eq_refl)
    as [_ Hok].
  pose proof (recordRequest_health strugglingLimiter "u1" (busyUser 1) false 5000 eq_refl)
    as [_ Hfail].
  cbn in Hok, Hfail. destruct Hok as (Hok & _). destruct Hfail as (Hf1 & Hf2 & _).
  split; [exact Hok|]. split; [exact Hf1 | exact Hf2].
Defined.

(** C9, as stated, fails when the hour of the snapshot is over: the
    average 0.5 is 1 after a failure, and 1 after a success, not 0.55. Inside
    the hour a failure also counts one up in the total of the snapshot, which
    is not an error counter. *)
Lemma hourly_reset_moves_average :
  totalRequests (apiHealth strugglingLimiter) = 7 /\
  totalRequests (apiHealth (recordRequest strugglingLimiter "u1" false 5000)) = 8 /\
  successRate (apiHealth strugglingLimiter) = 1 # 2 /\
  successRate (apiHealth (recordRequest strugglingLimiter "u1" false 3600001)) = 1%Q /\
  successRate (apiHealth (recordRequest strugglingLimiter "u1" true 3600001)) = 1%Q /\
  ~ (1 == (1 # 2) * (9 # 10) + (1 # 10))%Q.
Proof. repeat split. vm_compute. discriminate. Qed.

End LimiterProperties.

(** * Properties of the prompt manager *)

Module PromptProperties.
Import JsString SystemPromptManager Statements.

Lemma isEmpty_true (s : string) : isEmpty s = true <-> s = "".
Proof. apply String.eqb_eq. Qed.

Lemma jsLength_zero (s : string) : (jsLength s =? 0) = true <-> s = "".
Proof.
  rewrite Z.eqb_eq. unfold jsLength. destruct s; simpl; split; intros H;
    try reflexivity; try discriminate; lia.
Qed.

Lemma blank_test (prompt : string) :
  isEmpty prompt || (jsLength (trim prompt) =? 0) = true <-> trim prompt = "".
Proof.
  rewrite orb_true_iff, isEmpty_true, jsLength_zero. split.
  - intros [-> | H]; [reflexivity | exact H].
  - intros H. now right.
Qed.

Lemma unfilled_test (prompt placeholder input : string) :
  includes prompt placeholder && isEmpty input = true
  <-> includes prompt placeholder = true /\ input = "".
Proof. now rewrite andb_true_iff, isEmpty_true. Qed.

(** C5, as the code has it. A prompt is reported invalid exactly when it
    is empty or white space only, or longer than 100,000 characters, or still
    holds a placeholder whose current input is empty. *)
Theorem validatePrompt_invalid_iff (m : Manager) (prompt : string) :
  isValid (validatePrompt m prompt) = false <->
  (trim prompt = "" \/
   100000 < jsLength prompt \/
   (includes prompt "{{USER_TEXT}}" = true /\ currentUserText m = "") \/
   (includes prompt "{{RETRIEVED_CONTEXT}}" = true /\ currentRetrievedContext m = "")).
Proof.
  rewrite <- blank_test, <- Z.ltb_lt, <- !unfilled_test.
  unfold validatePrompt; cbn [isValid].
  destruct (isEmpty prompt || (jsLength (trim prompt) =? 0));
    destruct (100000 <? jsLength prompt);
    destruct (includes prompt "{{USER_TEXT}}" && isEmpty (currentUserText m));
    destruct (includes prompt "{{RETRIEVED_CONTEXT}}"
              && isEmpty (currentRetrievedContext m));
    cbn; intuition congruence.
Qed.

(** C5, as stated, fails in both directions. With user text present a
    prompt that still holds the user-text placeholder passes; with no user text
    the same prompt is reported, though no input is non-empty; and so is a
    prompt of three blanks, which is not empty. *)
Lemma placeholder_check_is_for_empty_input :
  isValid (validatePrompt (managerWith "Q3 revenue" "guidance") "   ") = false /\
  isValid (validatePrompt (managerWith "Q3 revenue" "") "Analyze {{USER_TEXT}}") = true /\
  includes "Analyze {{USER_TEXT}}" "{{USER_TEXT}}" = true /\
  currentUserText (managerWith "Q3 revenue" "") <> "" /\
  isValid (validatePrompt (managerWith "" "") "Analyze {{USER_TEXT}}") = false /\
  "Analyze {{USER_TEXT}}" <> "" /\
  jsLength "Analyze {{USER_TEXT}}" <= 100000 /\
  currentUserText (managerWith "" "") = "" /\
  currentRetrievedContext (managerWith "" "") = "".
Proof. repeat split; try discriminate. Qed.

End PromptProperties.

(** * Further properties of the chunker *)

Module ChunkerExtras.
Import JsString Regex SmartContentProcessor Statements ChunkerProperties.

Lemma Qlt_bool_true (a b : Q) : Qlt_bool a b = true -> (a <= b)%Q.
Proof.
  unfold Qlt_bool. destruct (Qle_bool b a) eqn:E; [discriminate|]. intros _.
  apply Qlt_le_weak, Qnot_le_lt. intros H. apply Qle_bool_iff in H. congruence.
Qed.

Lemma Qlt_bool_false (a b : Q) : Qlt_bool a b = false -> (b <= a)%Q.
Proof.
  unfold Qlt_bool. destruct (Qle_bool b a) eqn:E; [|discriminate]. intros _.
  now apply Qle_bool_iff.
Qed.

Lemma insertChunk_Forall (P : Chunk -> Prop) (c : Chunk) (l : list Chunk) :
  P c -> Forall P l -> Forall P (insertChunk c l).
Proof.
  intros Hc Hl. induction Hl as [|d l Hd Hl IH]; simpl.
  - constructor; [exact Hc | constructor].
  - destruct (Qlt_bool _ _); constructor; auto.
Qed.

Lemma insertChunk_sorted (c : Chunk) (l : list Chunk) :
  StronglySorted (fun a b => (relevance b <= relevance a)%Q) l ->
  StronglySorted (fun a b => (relevance b <= relevance a)%Q) (insertChunk c l).
Proof.
  intros H. induction H as [|d l Hl IH Hd]; simpl.
  - constructor; constructor.
  - destruct (Qlt_bool (relevance c) (relevance d)) eqn:E.
    + constructor; [exact IH|].
      apply insertChunk_Forall; [now apply Qlt_bool_true | exact Hd].
    + apply Qlt_bool_false in E. constructor; [now constructor|].
      constructor; [exact E|].
      eapply Forall_impl; [exact Hd|]. intros x Hx. cbn in Hx |- *.
      eapply Qle_trans; eassumption.
Qed.

Lemma sortChunks_sorted (l : list Chunk) :
  StronglySorted (fun a b => (relevance b <= relevance a)%Q) (sortChunks l).
Proof.
  induction l as [|c l IH]; simpl; [constructor | now apply insertChunk_sorted].
Qed.

Lemma sorted_take {A : Type} (R : A -> A -> Prop) (n : nat) (l : list A) :
  StronglySorted R l -> StronglySorted R (take n l).
Proof.
  intros H. revert n. induction H as [|x l Hl IH Hx]; intros [|n]; simpl;
    try constructor; auto.
  clear -Hx. revert n. induction Hx as [|y l Hy Hl IH]; intros [|n]; simpl;
    constructor; auto.
Qed.

Lemma sorted_scores (l : list Chunk) :
  StronglySorted (fun a b => (relevance b <= relevance a)%Q) l ->
  descending (map relevance l).
Proof.
  intros H. unfold descending. induction H as [|x l Hl IH Hx]; simpl; constructor; auto.
  clear -Hx. induction Hx; simpl; constructor; auto.
Qed.

Lemma overlapLoop_scores (p : Processor) (chunks : list Chunk) :
  forall prev, map relevance (overlapLoop p prev chunks) = map relevance chunks.
Proof.
  induction chunks as [|c rest IH]; intros prev; simpl; [reflexivity|].
  now rewrite IH.
Qed.

Lemma addOverlap_scores (p : Processor) (chunks : list Chunk) :
  map relevance (addOverlap p chunks) = map relevance chunks.
Proof.
  unfold addOverlap. destruct (_ <=? _)%nat; [reflexivity | apply overlapLoop_scores].
Qed.

(** The chunks come back ordered by relevance, the most relevant first,
    whatever the content and the query. *)
Theorem chunkContent_descending (p : Processor) (content query : string) :
  descending (map relevance (chunkContent p content query)).
Proof.
  unfold chunkContent, chunkContentTraced.
  destruct (_ <=? _).
  - cbn. constructor; constructor.
  - assert (filteredChunks p content query = sortedChunks p content query) as ->.
    { unfold filteredChunks, sortedChunks.
      apply keepRelevant_inRange, sortChunks_inRange, candidateChunks_inRange. }
    destruct (_ =? _)%nat; cbn [snd]; rewrite addOverlap_scores; apply sorted_scores.
    + apply sorted_take, sortChunks_sorted.
    + apply sortChunks_sorted.
Qed.

Lemma packStep_unscored (p : Processor) (acc : list Chunk * string) (par : string) :
  Forall unscoredParagraph (fst acc) -> Forall unscoredParagraph (fst (packStep p acc par)).
Proof.
  destruct acc as [chunks cur]; unfold packStep; simpl. intros H.
  destruct (_ <=? _); simpl; [exact H|].
  destruct (String.eqb cur ""); [exact H|].
  apply Forall_app; split; [exact H|]. constructor; [|constructor]. split; reflexivity.
Qed.

Lemma splitByParagraphs_unscored (p : Processor) (s : string) :
  Forall unscoredParagraph (splitByParagraphs p s).
Proof.
  unfold splitByParagraphs.
  assert (forall pars acc, Forall unscoredParagraph (fst acc) ->
            Forall unscoredParagraph (fst (fold_left (packStep p) pars acc))) as Hfold.
  { induction pars as [|par pars IH]; intros acc H; simpl; [exact H|].
    apply IH, packStep_unscored, H. }
  specialize (Hfold (split reBlankLine s) ([], "") (List.Forall_nil _)).
  destruct (fold_left _ _ _) as [chunks cur]. simpl in Hfold.
  destruct (String.eqb _ _); [exact Hfold|].
  apply Forall_app; split; [exact Hfold|]. constructor; [|constructor]. split; reflexivity.
Qed.

(** A section longer than [maxChunkSize] is cut into paragraph chunks
    without a look at the query: the chunks are the same for every query, and
    each has the relevance 0.5 of the empty query. *)
Theorem long_section_ignores_query (p : Processor) (query sec : string)
    (Hlong : maxChunkSize p < jsLength sec) :
  sectionChunks p query sec = sectionChunks p "" sec /\
  Forall unscoredParagraph (sectionChunks p query sec).
Proof.
  unfold sectionChunks.
  assert ((jsLength sec <=? maxChunkSize p) = false) as -> by (apply Z.leb_gt; exact Hlong).
  split; [reflexivity|].
  pose proof (splitByParagraphs_unscored p sec) as H.
  induction H as [|c l [Hr Ht] Hl IH]; simpl; constructor; [|exact IH].
  split; [exact Hr | reflexivity].
Qed.

Lemma long_section_ignores_query_witness :
  maxChunkSize smallProcessor < jsLength "Revenue grew again in the third quarter." /\
  sectionChunks smallProcessor "revenue" "Revenue grew again in the third quarter."
    = sectionChunks smallProcessor "" "Revenue grew again in the third quarter." /\
  Forall unscoredParagraph
    (sectionChunks smallProcessor "revenue" "Revenue grew again in the third quarter.").
Proof.
  split; [reflexivity|].
  apply (long_section_ignores_query smallProcessor "revenue"
           "Revenue grew again in the third quarter.").
  reflexivity.
Defined.

Lemma short_words_leave_score (contentLower : string) (words : list string) :
  forall acc,
    forallb (fun word => jsLength word <? 3) words = true ->
    fold_left (scoreWord contentLower) words acc = acc.
Proof.
  induction words as [|w words IH]; intros [score exact] H; [reflexivity|].
  cbn [forallb] in H. apply andb_true_iff in H as [Hw Hrest].
  cbn [fold_left]. unfold scoreWord at 2. rewrite Hw. now apply IH.
Qed.

(** A query of words shorter than three characters is scored by the
    vocabulary alone: three points for every business pattern in the content,
    five off for every disclaimer pattern, over ten times the number of words,
    cut to the range from 0 to 1. *)
Theorem short_query_scored_by_vocabulary (content query : string)
    (Hquery : query <> "")
    (Hshort : allShort query = true) :
  calculateRelevance content query
  = Qmin 1 (Qmax 0 (ratio (0 - 5 * hits disclaimerPatterns (toLowerCase content)
                             + 3 * hits businessPatterns (toLowerCase content))
                          (List.length (split reSpaces (toLowerCase query))))).
Proof.
  unfold calculateRelevance.
  apply String.eqb_neq in Hquery. rewrite Hquery.
  rewrite short_words_leave_score by exact Hshort.
  change (0 * 2) with 0. now rewrite Z.add_0_r.
Qed.

Lemma short_query_scored_by_vocabulary_witness :
  "Q3 vs Q2" <> "" /\
  allShort "Q3 vs Q2" = true /\
  calculateRelevance "Revenue growth beat the legal notice" "Q3 vs Q2"
  = Qmin 1 (Qmax 0 (ratio (0 - 5 * hits disclaimerPatterns
                                     (toLowerCase "Revenue growth beat the legal notice")
                             + 3 * hits businessPatterns
                                     (toLowerCase "Revenue growth beat the legal notice"))
                          (List.length (split reSpaces (toLowerCase "Q3 vs Q2"))))).
Proof.
  split; [discriminate|]. split; [reflexivity|].
  apply (short_query_scored_by_vocabulary "Revenue growth beat the legal notice" "Q3 vs Q2");
    [discriminate | reflexivity].
Defined.

Lemma takeS_length (n : nat) (s : string) : (String.length (takeS n s) <= n)%nat.
Proof.
  revert s. induction n as [|n IH]; intros [|a s]; simpl; try lia.
  specialize (IH s). lia.
Qed.

Lemma slice_tail_length (s : string) (k : Z) :
  0 < k -> jsLength (slice s (- k) None) <= k.
Proof.
  intros Hk. unfold slice, clampIndex.
  assert ((- k <? 0) = true) as -> by (apply Z.ltb_lt; lia).
  unfold jsLength at 1.
  pose proof (takeS_length
                (Z.to_nat (Z.max (jsLength s - Z.max (jsLength s + - k) 0) 0))
                (dropS (Z.to_nat (Z.max (jsLength s + - k) 0)) s)).
  pose proof (jsLength_nonneg s). lia.
Qed.

Lemma slice_head_length (s : string) (k : Z) :
  0 <= k -> jsLength (slice s 0 (Some k)) <= k.
Proof.
  intros Hk. unfold slice, clampIndex.
  assert ((k <? 0) = false) as -> by (apply Z.ltb_ge; lia).
  change (0 <? 0) with false. cbv iota.
  unfold jsLength at 1.
  pose proof (takeS_length
                (Z.to_nat (Z.max (Z.min k (jsLength s) - Z.min 0 (jsLength s)) 0))
                (dropS (Z.to_nat (Z.min 0 (jsLength s))) s)).
  pose proof (jsLength_nonneg s). lia.
Qed.

Lemma enhance_growth (p : Processor) (prev next : option Chunk) (c : Chunk) :
  0 < overlapSize p ->
  jsLength (content (enhance p prev c next))
  <= jsLength (content c) + 2 * overlapSize p + 40.
Proof.
  intros Hk. unfold enhance; cbn [content].
  destruct prev as [pc|], next as [nc|]; rewrite ?jsLength_append;
    try (pose proof (slice_tail_length (content pc) (overlapSize p) Hk));
    try (pose proof (slice_head_length (content nc) (overlapSize p) ltac:(lia)));
    change (jsLength "[Previous context: ") with 19;
    change (jsLength "[Next context: ") with 15;
    change (jsLength "]") with 1;
    change (jsLength nl) with 1; lia.
Qed.

(** With a positive [overlapSize], the stitching adds at most twice
    [overlapSize] characters of neighbouring text and 40 characters of
    markers to a chunk. *)
Theorem addOverlap_growth (p : Processor) (chunks : list Chunk) (i : nat) (c : Chunk)
    (Hsize : 0 < overlapSize p)
    (Hi : chunks !! i = Some c) :
  exists c' : Chunk,
    addOverlap p chunks !! i = Some c' /\
    jsLength (content c') <= jsLength (content c) + 2 * overlapSize p + 40.
Proof.
  unfold addOverlap. destruct (_ <=? _)%nat.
  - exists c. split; [exact Hi | lia].
  - destruct (overlapLoop_lookup p chunks None i c Hi) as (pv & nx & Hl).
    exists (enhance p pv c nx). split; [exact Hl | now apply enhance_growth].
Qed.

Lemma addOverlap_growth_witness :
  0 < overlapSize defaultProcessor /\
  sampleChunks !! 0%nat = Some (mkChunk "Revenue rose." (6 # 10) (Some section) None None) /\
  exists c' : Chunk,
    addOverlap defaultProcessor sampleChunks !! 0%nat = Some c' /\
    jsLength (content c')
    <= jsLength "Revenue rose." + 2 * overlapSize defaultProcessor + 40.
Proof.
  split; [reflexivity|]. split; [reflexivity|].
  apply (addOverlap_growth defaultProcessor sampleChunks 0
           (mkChunk "Revenue rose." (6 # 10) (Some section) None None));
    reflexivity.
Defined.

Lemma overlapLoop_total (p : Processor) (chunks : list Chunk) :
  forall (prev : option Chunk) (a : Z),
    fold_left addLength (overlapLoop p prev chunks) (Some a)
    = Some (a + sumLengths chunks).
Proof.
  induction chunks as [|c rest IH]; intros prev a; simpl.
  - f_equal. lia.
  - rewrite IH. f_equal. lia.
Qed.

(** The summary of a stitched list of two or more chunks counts the
    chunks and adds up the lengths of their original texts, without the
    overlap. *)
Theorem summary_of_stitched_chunks (toFixed2 : Q -> string) (p : Processor)
    (chunks : list Chunk)
    (Hmany : (2 <= List.length chunks)%nat) :
  totalChunks (getChunkSummary toFixed2 (addOverlap p chunks))
  = Z.of_nat (List.length chunks) /\
  totalContentLength (getChunkSummary toFixed2 (addOverlap p chunks))
  = Some (sumLengths chunks).
Proof.
  unfold addOverlap.
  assert ((List.length chunks <=? 1)%nat = false) as -> by (apply Nat.leb_gt; lia).
  cbn [getChunkSummary totalChunks totalContentLength].
  rewrite overlapLoop_length, overlapLoop_total. split; reflexivity.
Qed.

Lemma summary_of_stitched_chunks_witness :
  (2 <= List.length sampleChunks)%nat /\
  totalChunks (getChunkSummary (fun _ => "0.00") (addOverlap defaultProcessor sampleChunks))
  = Z.of_nat (List.length sampleChunks) /\
  totalContentLength
    (getChunkSummary (fun _ => "0.00") (addOverlap defaultProcessor sampleChunks))
  = Some (sumLengths sampleChunks).
Proof.
  split; [cbn; lia|].
  apply (summary_of_stitched_chunks (fun _ => "0.00") defaultProcessor sampleChunks).
  cbn; lia.
Defined.

(** For content that fits into one chunk the summary counts one chunk and
    its total length is [NaN]: the single chunk has no [originalLength]. *)
Theorem summary_of_short_content (toFixed2 : Q -> string) (p : Processor)
    (content query : string)
    (Hshort : jsLength content <= maxChunkSize p) :
  totalChunks (getChunkSummary toFixed2 (chunkContent p content query)) = 1 /\
  totalContentLength (getChunkSummary toFixed2 (chunkContent p content query)) = None.
Proof.
  unfold chunkContent, chunkContentTraced.
  apply Z.leb_le in Hshort. rewrite Hshort. split; reflexivity.
Qed.

Lemma summary_of_short_content_witness :
  jsLength "Revenue grew in the quarter" <= maxChunkSize defaultProcessor /\
  totalChunks (getChunkSummary (fun _ => "0.00")
                 (chunkContent defaultProcessor "Revenue grew in the quarter" "revenue"))
  = 1 /\
  totalContentLength
    (getChunkSummary (fun _ => "0.00")
       (chunkContent defaultProcessor "Revenue grew in the quarter" "revenue"))
  = None.
Proof.
  split; [vm_compute; discriminate|].
  apply (summary_of_short_content (fun _ => "0.00") defaultProcessor
           "Revenue grew in the quarter" "revenue").
  vm_compute; discriminate.
Defined.

End ChunkerExtras.

(** * Further properties of the content cache *)

Module CacheExtras.
Import JsString ContentCache Statements CacheProperties.

Section Generic.

Context {Payload : Type}.
Variable sha256hex : string -> string.
Variable jsonLength : CacheData Payload -> Z.

Lemma filter_shorter {A : Type} (f : A -> bool) (l : list A) :
  (List.length (List.filter f l) <= List.length l)%nat.
Proof. induction l as [|x l IH]; simpl; [lia|]. destruct (f x); simpl; lia. Qed.

Lemma mapSet_length (m : list (string * CacheData Payload)) (key : string)
    (v : CacheData Payload) :
  (List.length (mapSet m key v) <= S (List.length m))%nat.
Proof.
  induction m as [|[k w] rest IH]; simpl; [lia|].
  destruct (String.eqb k key); simpl; lia.
Qed.

Lemma mapGet_mapSet_other (m : list (string * CacheData Payload)) (key other : string)
    (v : CacheData Payload) :
  other <> key -> mapGet (mapSet m other v) key = mapGet m key.
Proof.
  intros Hne. induction m as [|[k w] rest IH]; simpl.
  - apply String.eqb_neq in Hne. now rewrite Hne.
  - destruct (String.eqb k other) eqn:E; simpl.
    + apply String.eqb_eq in E. subst k.
      apply String.eqb_neq in Hne. now rewrite Hne.
    + now rewrite IH.
Qed.

Lemma mapGet_mapDelete (m : list (string * CacheData Payload)) (key : string) :
  mapGet (mapDelete m key) key = None.
Proof.
  unfold mapDelete. induction m as [|[k w] rest IH]; simpl; [reflexivity|].
  destruct (String.eqb k key) eqn:E; simpl; [exact IH|]. now rewrite E.
Qed.

Lemma addToMemoryCache_bounded (c : Cache Payload) (key : string) (v : CacheData Payload) :
  memoryBounded c -> memoryBounded (addToMemoryCache c key v).
Proof.
  unfold memoryBounded, addToMemoryCache; cbn [memoryCache maxMemorySize]. intros H.
  destruct (maxMemorySize c <=? List.length (memoryCache c))%nat eqn:E.
  - destruct (memoryCache c) as [|[k0 v0] rest] eqn:Em; [cbn; lia|].
    pose proof (mapSet_length (mapDelete ((k0, v0) :: rest) k0) key v) as Hs.
    assert (List.length (mapDelete ((k0, v0) :: rest) k0) <= List.length rest)%nat as Hd.
    { unfold mapDelete. cbn [List.filter fst]. rewrite String.eqb_refl. cbn [negb].
      apply filter_shorter. }
    cbn [List.length] in H. lia.
  - apply Nat.leb_gt in E.
    pose proof (mapSet_length (memoryCache c) key v). lia.
Qed.

(** What a lookup does to the statistics, and what it leaves alone. *)
Lemma getCachedContent_frame (c : Cache Payload) (content query : string) (now : Z) :
  maxMemorySize (fst (getCachedContent sha256hex c content query now)) = maxMemorySize c /\
  indexFile (fst (getCachedContent sha256hex c content query now)) = indexFile c /\
  saves (cacheStats (fst (getCachedContent sha256hex c content query now)))
    = saves (cacheStats c) /\
  totalSize (cacheStats (fst (getCachedContent sha256hex c content query now)))
    = totalSize (cacheStats c).
Proof.
  unfold getCachedContent.
  destruct (mapGet _ _); [repeat split|].
  destruct (files c !! _) as [[|cached]|]; [repeat split| |repeat split].
  destruct (isCacheValid cached now); repeat split.
Qed.

(** Every lookup is counted once: as a hit when it answers with an entry,
    as a miss when it answers [null]. *)
Theorem lookup_counted_once (c : Cache Payload) (content query : string) (now : Z) :
  match snd (getCachedContent sha256hex c content query now) with
  | Some _ =>
      hits (cacheStats (fst (getCachedContent sha256hex c content query now)))
        = hits (cacheStats c) + 1 /\
      misses (cacheStats (fst (getCachedContent sha256hex c content query now)))
        = misses (cacheStats c)
  | None =>
      hits (cacheStats (fst (getCachedContent sha256hex c content query now)))
        = hits (cacheStats c) /\
      misses (cacheStats (fst (getCachedContent sha256hex c content query now)))
        = misses (cacheStats c) + 1
  end.
Proof.
  unfold getCachedContent.
  destruct (mapGet _ _); [split; reflexivity|].
  destruct (files c !! _) as [[|cached]|]; [split; reflexivity| |split; reflexivity].
  destruct (isCacheValid cached now); split; reflexivity.
Qed.

Lemma cacheContent_stored (c : Cache Payload) (content query : string) (payload : Payload)
    (extraMetadata : list (string * string)) (now : Z) (indexWriteFails : bool) :
  files (fst (cacheContent sha256hex jsonLength c content query payload extraMetadata
                now false indexWriteFails))
  = <[generateCacheKey sha256hex content query :=
        Parsed {| content := payload;
                  metadata := Some {| extra := extraMetadata;
                                      originalLength := jsLength content;
                                      query := query;
                                      timestamp := now;
                                      expiresAt := Some (now + day) |} |}]> (files c).
Proof.
  unfold cacheContent, updateCacheIndex; cbn [fst]. destruct indexWriteFails; reflexivity.
Qed.

(** An entry that was stored is found again by a new process over the same
    directory, as long as the clock is before [expiresAt]: the lookup answers
    with the stored payload from the persisted tier and puts the entry into
    the in-memory tier. *)
Theorem stored_entry_survives_restart (c : Cache Payload) (content query : string)
    (payload : Payload) (extraMetadata : list (string * string)) (now later : Z)
    (indexWriteFails : bool)
    (Hfresh : later < now + day)
    (Hset : now + day <> 0) :
  exists entry : CacheData Payload,
    snd (getCachedContent sha256hex
           (construct
              (files (fst (cacheContent sha256hex jsonLength c content query payload
                             extraMetadata now false indexWriteFails)))
              (indexFile (fst (cacheContent sha256hex jsonLength c content query payload
                                 extraMetadata now false indexWriteFails))))
           content query later) = Some entry /\
    ContentCache.content entry = payload /\
    mapGet
      (memoryCache
         (fst (getCachedContent sha256hex
                 (construct
                    (files (fst (cacheContent sha256hex jsonLength c content query payload
                                   extraMetadata now false indexWriteFails)))
                    (indexFile (fst (cacheContent sha256hex jsonLength c content query
                                       payload extraMetadata now false indexWriteFails))))
                 content query later)))
      (generateCacheKey sha256hex content query) = Some entry.
Proof.
  rewrite cacheContent_stored.
  unfold getCachedContent, construct; cbn [memoryCache mapGet files].
  rewrite lookup_insert_eq.
  unfold isCacheValid; cbn [metadata expiresAt].
  apply Z.eqb_neq in Hset. rewrite Hset.
  apply Z.ltb_lt in Hfresh. rewrite Hfresh.
  eexists. split; [reflexivity|]. split; [reflexivity|].
  cbn [fst]. apply addToMemoryCache_get.
Qed.

(** A file that does not parse, or whose entry is no longer valid, makes
    the lookup a miss and is deleted; the in-memory tier and the other files
    stay as they are. *)
Theorem unusable_file_removed (c : Cache Payload) (content query : string)
    (f : DiskFile Payload) (now : Z)
    (Hmem : mapGet (memoryCache c) (generateCacheKey sha256hex content query) = None)
    (Hfile : files c !! generateCacheKey sha256hex content query = Some f)
    (Hbad : unusable f now = true) :
  snd (getCachedContent sha256hex c content query now) = None /\
  files (fst (getCachedContent sha256hex c content query now))
    !! generateCacheKey sha256hex content query = None /\
  memoryCache (fst (getCachedContent sha256hex c content query now)) = memoryCache c /\
  forall key : string,
    key <> generateCacheKey sha256hex content query ->
    files (fst (getCachedContent sha256hex c content query now)) !! key = files c !! key.
Proof.
  unfold getCachedContent. rewrite Hmem, Hfile.
  assert (forall key : string,
            key <> generateCacheKey sha256hex content query ->
            delete (generateCacheKey sha256hex content query) (files c) !! key
            = files c !! key) as Hother
    by (intros key Hne; apply lookup_delete_ne; congruence).
  destruct f as [|cached]; cbn [unusable] in Hbad.
  - cbn. repeat split; [apply lookup_delete_eq | exact Hother].
  - apply negb_true_iff in Hbad. rewrite Hbad.
    cbn. repeat split; [apply lookup_delete_eq | exact Hother].
Qed.

(** Eviction goes by the order of insertion, and a read does not renew an
    entry: when the in-memory tier is full, the entry that was inserted first
    is dropped by the next store of another key, even if it was read just
    before. *)
Theorem read_does_not_protect_oldest (c : Cache Payload) (content query : string)
    (oldest : CacheData Payload) (content' query' : string) (payload : Payload)
    (extraMetadata : list (string * string)) (now now' : Z) (indexWriteFails : bool)
    (Hold : head (memoryCache c) = Some (generateCacheKey sha256hex content query, oldest))
    (Hfull : (maxMemorySize c <= List.length (memoryCache c))%nat)
    (Hother : generateCacheKey sha256hex content' query'
              <> generateCacheKey sha256hex content query) :
  snd (getCachedContent sha256hex c content query now) = Some oldest /\
  mapGet
    (memoryCache
       (fst (cacheContent sha256hex jsonLength
               (fst (getCachedContent sha256hex c content query now))
               content' query' payload extraMetadata now' false indexWriteFails)))
    (generateCacheKey sha256hex content query) = None.
Proof.
  destruct (memoryCache c) as [|[k0 v0] rest] eqn:Em; [discriminate|].
  cbn in Hold. injection Hold as -> ->.
  assert (mapGet (memoryCache c) (generateCacheKey sha256hex content query) = Some oldest)
    as Hhit by (rewrite Em; cbn; now rewrite String.eqb_refl).
  unfold getCachedContent. rewrite Hhit. cbn [fst snd]. split; [reflexivity|].
  unfold cacheContent, updateCacheIndex; cbn [fst].
  assert (forall data,
            mapGet
              (memoryCache
                 (addToMemoryCache
                    {| memoryCache := memoryCache c;
                       maxMemorySize := maxMemorySize c;
                       cacheStats := bumpHits (cacheStats c);
                       files := <[generateCacheKey sha256hex content' query' := Parsed data]>
                                  (files c);
                       indexFile := indexFile c |}
                    (generateCacheKey sha256hex content' query') data))
              (generateCacheKey sha256hex content query) = None) as Hgone.
  { intros data. unfold addToMemoryCache; cbn [memoryCache maxMemorySize].
    rewrite Em. apply Nat.leb_le in Hfull. rewrite Hfull.
    rewrite mapGet_mapSet_other by exact Hother. apply mapGet_mapDelete. }
  destruct indexWriteFails; cbn [memoryCache withStats]; apply Hgone.
Qed.

Lemma sweep_fold_lookup (now : Z) (l : list (string * IndexEntry)) :
  forall (dir : gmap string (DiskFile Payload)) (key : string),
    fold_left (sweepStep now) l dir !! key
    = if existsb (fun ke => String.eqb (fst ke) key && expiredEntry (snd ke) now) l
      then None else dir !! key.
Proof.
  induction l as [|[k e] rest IH]; intros dir key; [reflexivity|].
  cbn [fold_left existsb fst snd]. rewrite IH.
  destruct (existsb _ rest); [now rewrite orb_true_r|].
  rewrite orb_false_r. unfold sweepStep; cbn [fst snd].
  destruct (expiredEntry e now); [|now rewrite andb_false_r].
  rewrite andb_true_r. destruct (String.eqb k key) eqn:E.
  - apply String.eqb_eq in E. subst k. apply lookup_delete_eq.
  - apply String.eqb_neq in E. now apply lookup_delete_ne.
Qed.

Lemma sweep_index_lookup (now : Z) (ix : gmap string IndexEntry) (key : string) :
  existsb (fun ke => String.eqb (fst ke) key && expiredEntry (snd ke) now) (map_to_list ix)
  = match ix !! key with
    | Some entry => expiredEntry entry now
    | None => false
    end.
Proof.
  apply eq_true_iff_eq. rewrite existsb_exists. split.
  - intros ([k e] & Hin & Hf). cbn [fst snd] in Hf.
    apply andb_true_iff in Hf as [Hk He]. apply String.eqb_eq in Hk. subst k.
    apply list_elem_of_In, elem_of_map_to_list in Hin. now rewrite Hin.
  - destruct (ix !! key) as [entry|] eqn:E; [|discriminate]. intros He.
    exists (key, entry). split.
    + now apply list_elem_of_In, elem_of_map_to_list.
    + cbn [fst snd]. now rewrite String.eqb_refl, He.
Qed.

Lemma sweep_memory (c : Cache Payload) (now : Z) :
  memoryCache (clearExpiredCache c now) = memoryCache c.
Proof. unfold clearExpiredCache. destruct (indexFile c) as [[|ix]|]; reflexivity. Qed.

Lemma sweep_files (c : Cache Payload) (ix : gmap string IndexEntry) (now : Z) :
  indexFile c = Some (ParsedIndex ix) ->
  forall key : string,
    files (clearExpiredCache c now) !! key
    = match ix !! key with
      | Some entry => if expiredEntry entry now then None else files c !! key
      | None => files c !! key
      end.
Proof.
  intros Hix key. unfold clearExpiredCache. rewrite Hix. cbn [files].
  rewrite sweep_fold_lookup, sweep_index_lookup. now destruct (ix !! key).
Qed.

(** The sweep of the index deletes exactly the files whose index entry has
    an [expiresAt] that lies before the clock; it keeps every other file, and
    it does not touch the in-memory tier or the index. *)
Theorem sweep_removes_expired_files (c : Cache Payload) (ix : gmap string IndexEntry)
    (now : Z)
    (Hix : indexFile c = Some (ParsedIndex ix)) :
  memoryCache (clearExpiredCache c now) = memoryCache c /\
  indexFile (clearExpiredCache c now) = indexFile c /\
  forall key : string,
    files (clearExpiredCache c now) !! key
    = match ix !! key with
      | Some entry => if expiredEntry entry now then None else files c !! key
      | None => files c !! key
      end.
Proof.
  split; [apply sweep_memory|]. split.
  - unfold clearExpiredCache. rewrite Hix. reflexivity.
  - intros key. unfold clearExpiredCache. rewrite Hix. cbn [files].
    rewrite sweep_fold_lookup, sweep_index_lookup. now destruct (ix !! key).
Qed.

Lemma cacheContent_indexed (c : Cache Payload) (content query : string) (payload : Payload)
    (extraMetadata : list (string * string)) (now : Z) :
  exists (ix : gmap string IndexEntry) (size : Z),
    indexFile (fst (cacheContent sha256hex jsonLength c content query payload extraMetadata
                      now false false))
    = Some (ParsedIndex
              (<[generateCacheKey sha256hex content query :=
                   mkIndexEntry now (Some (now + day)) (jsLength content) query size]> ix)).
Proof.
  unfold cacheContent, updateCacheIndex; cbn [fst indexFile withStats].
  eexists _, _. reflexivity.
Qed.

(** A stored entry and the sweep: the file of an entry stored at [now] is
    deleted by a sweep that runs after [now + day] and kept by every earlier
    one, also by one at exactly [now + day]; the copy in the in-memory tier
    stays in both cases. *)
Theorem sweep_after_store (c : Cache Payload) (content query : string) (payload : Payload)
    (extraMetadata : list (string * string)) (now later : Z)
    (Hset : now + day <> 0) :
  files (clearExpiredCache
           (fst (cacheContent sha256hex jsonLength c content query payload extraMetadata
                   now false false)) later)
    !! generateCacheKey sha256hex content query
  = (if now + day <? later then None
     else Some (Parsed {| content := payload;
                          metadata := Some {| extra := extraMetadata;
                                              originalLength := jsLength content;
                                              query := query;
                                              timestamp := now;
                                              expiresAt := Some (now + day) |} |})) /\
  mapGet
    (memoryCache
       (clearExpiredCache
          (fst (cacheContent sha256hex jsonLength c content query payload extraMetadata
                  now false false)) later))
    (generateCacheKey sha256hex content query)
  = Some {| content := payload;
            metadata := Some {| extra := extraMetadata;
                                originalLength := jsLength content;
                                query := query;
                                timestamp := now;
                                expiresAt := Some (now + day) |} |}.
Proof.
  destruct (cacheContent_indexed c content query payload extraMetadata now)
    as (ix & size & Hix).
  pose proof (sweep_files _ _ later Hix) as Hfiles.
  pose proof (sweep_memory
                (fst (cacheContent sha256hex jsonLength c content query payload
                        extraMetadata now false false)) later) as Hmem.
  split.
  - rewrite Hfiles, lookup_insert_eq. unfold expiredEntry; cbn [ix_expiresAt].
    apply Z.eqb_neq in Hset. rewrite Hset. cbn [negb andb].
    destruct (now + day <? later); [reflexivity|].
    now rewrite cacheContent_stored, lookup_insert_eq.
  - rewrite Hmem. apply cacheContent_memory.
Qed.

(** ** What every run keeps *)

Lemma addToMemoryCache_tidy (c : Cache Payload) (key : string) (v : CacheData Payload) :
  tidy c -> tidy (addToMemoryCache c key v).
Proof.
  intros (Hb & Hm & Hh & Hs). split; [now apply addToMemoryCache_bounded|].
  repeat split; assumption.
Qed.

Lemma withStats_tidy (c : Cache Payload) (s : Stats) :
  tidy c -> 0 <= hits s -> 0 <= misses s -> tidy (withStats c s).
Proof. intros (Hb & Hm & _ & _) Hh Hs. repeat split; assumption. Qed.

Lemma unlink_tidy (c : Cache Payload) (key : string) : tidy c -> tidy (unlink c key).
Proof. intros H. exact H. Qed.

Lemma getCachedContent_tidy (c : Cache Payload) (content query : string) (now : Z) :
  tidy c -> tidy (fst (getCachedContent sha256hex c content query now)).
Proof.
  intros H. pose proof H as (_ & _ & Hh & Hs). unfold getCachedContent.
  destruct (mapGet _ _); cbn [fst].
  - apply withStats_tidy; cbn; try assumption; lia.
  - destruct (files c !! _) as [[|cached]|]; cbn [fst].
    + apply withStats_tidy; [now apply unlink_tidy | cbn; lia | cbn; lia].
    + destruct (isCacheValid cached now); cbn [fst].
      * apply addToMemoryCache_tidy, withStats_tidy; cbn; try assumption; lia.
      * apply withStats_tidy; [now apply unlink_tidy | cbn; lia | cbn; lia].
    + apply withStats_tidy; cbn; try assumption; lia.
Qed.

Lemma cacheContent_tidy (c : Cache Payload) (content query : string) (payload : Payload)
    (extraMetadata : list (string * string)) (now : Z) (writeFails indexWriteFails : bool) :
  tidy c ->
  tidy (fst (cacheContent sha256hex jsonLength c content query payload extraMetadata now
               writeFails indexWriteFails)).
Proof.
  intros H. unfold cacheContent. destruct writeFails; [exact H|]. cbn [fst].
  set (c1 := {| memoryCache := memoryCache c; maxMemorySize := maxMemorySize c;
                cacheStats := cacheStats c; files := _; indexFile := indexFile c |}).
  assert (tidy c1) as H1 by exact H.
  set (data := {| content := payload; metadata := _ |}).
  pose proof (addToMemoryCache_tidy c1 (generateCacheKey sha256hex content query) data H1)
    as H2.
  unfold updateCacheIndex. destruct indexWriteFails.
  - apply withStats_tidy; [exact H2 | apply H2 | apply H2].
  - apply withStats_tidy; [exact H2 | apply H2 | apply H2].
Qed.

Lemma preloadContent_tidy (keys : list string) (now : Z) :
  forall c : Cache Payload, tidy c -> tidy (preloadContent c keys now).
Proof.
  induction keys as [|key keys IH]; intros c H; [exact H|].
  cbn [preloadContent fold_left]. apply IH. unfold preloadStep.
  destruct (files c !! key) as [[|cached]|]; try exact H.
  destruct (isCacheValid cached now); [now apply addToMemoryCache_tidy | exact H].
Qed.

Lemma cacheStep_tidy (c : Cache Payload) (op : CacheOp Payload) :
  tidy c -> tidy (cacheStep sha256hex jsonLength c op).
Proof.
  intros H. destruct op; cbn [cacheStep].
  - now apply getCachedContent_tidy.
  - now apply cacheContent_tidy.
  - unfold clearExpiredCache. destruct (indexFile c) as [[|ix]|]; exact H.
  - unfold clearAllCache. destruct readFails; [exact H|]. cbn [fst].
    destruct H as (_ & Hm & _ & _).
    unfold tidy, memoryBounded; cbn. repeat split; first [lia | exact Hm].
  - now apply preloadContent_tidy.
Qed.

Lemma runCache_tidy (ops : list (CacheOp Payload)) :
  forall c : Cache Payload, tidy c -> tidy (runCache sha256hex jsonLength c ops).
Proof.
  induction ops as [|op ops IH]; intros c H; [exact H|].
  cbn [runCache fold_left]. apply IH, cacheStep_tidy, H.
Qed.

Lemma construct_tidy (dir : gmap string (DiskFile Payload)) (ix : option IndexFile) :
  tidy (construct dir ix).
Proof. unfold tidy, memoryBounded; cbn. repeat split; lia. Qed.

(** However a cache is used after its construction, by lookups, stores,
    sweeps, clearing and preloading, in any order and with any failures, the
    in-memory tier never holds more than 100 entries. *)
Theorem memory_never_exceeds_hundred (dir : gmap string (DiskFile Payload))
    (ix : option IndexFile) (ops : list (CacheOp Payload)) :
  (List.length (memoryCache (runCache sha256hex jsonLength (construct dir ix) ops))
   <= 100)%nat.
Proof.
  destruct (runCache_tidy ops _ (construct_tidy dir ix)) as (Hb & Hm & _).
  unfold memoryBounded in Hb. rewrite Hm in Hb. exact Hb.
Qed.

(** The hit rate that [getCacheStats] reports is a fraction between 0 and
    1 after every run, also before the first lookup, where it is 0 over 1. *)
Theorem hit_rate_is_a_fraction (dir : gmap string (DiskFile Payload))
    (ix : option IndexFile) (ops : list (CacheOp Payload)) :
  (0 <= hitRate (getCacheStats (runCache sha256hex jsonLength (construct dir ix) ops))
   <= 1)%Q.
Proof.
  destruct (runCache_tidy ops _ (construct_tidy dir ix)) as (_ & _ & Hh & Hs).
  set (c := runCache sha256hex jsonLength (construct dir ix) ops) in *.
  unfold getCacheStats; cbn [hitRate]. unfold Qle; cbn [Qnum Qden].
  rewrite Z2Pos.id by lia. lia.
Qed.

End Generic.

Lemma stored_entry_survives_restart_witness :
  2000 < 1000 + day /\
  1000 + day <> 0 /\
  exists entry : CacheData string,
    snd (getCachedContent plainKey
           (construct
              (files (fst (cacheContent plainKey unitSize emptyCache "report" "revenue"
                             "summary" [] 1000 false false)))
              (indexFile (fst (cacheContent plainKey unitSize emptyCache "report" "revenue"
                                 "summary" [] 1000 false false))))
           "report" "revenue" 2000) = Some entry /\
    content entry = "summary" /\
    mapGet
      (memoryCache
         (fst (getCachedContent plainKey
                 (construct
                    (files (fst (cacheContent plainKey unitSize emptyCache "report"
                                   "revenue" "summary" [] 1000 false false)))
                    (indexFile (fst (cacheContent plainKey unitSize emptyCache "report"
                                       "revenue" "summary" [] 1000 false false))))
                 "report" "revenue" 2000)))
      (generateCacheKey plainKey "report" "revenue") = Some entry.
Proof.
  split; [reflexivity|]. split; [discriminate|].
  apply (stored_entry_survives_restart plainKey unitSize emptyCache "report" "revenue"
           "summary" [] 1000 2000 false); [reflexivity | discriminate].
Defined.

Lemma unusable_file_removed_witness :
  mapGet (memoryCache brokenCache) (generateCacheKey plainKey "report" "revenue") = None /\
  files brokenCache !! generateCacheKey plainKey "report" "revenue" = Some Corrupt /\
  unusable (@Corrupt string) 2000 = true /\
  snd (getCachedContent plainKey brokenCache "report" "revenue" 2000) = None /\
  files (fst (getCachedContent plainKey brokenCache "report" "revenue" 2000))
    !! generateCacheKey plainKey "report" "revenue" = None /\
  memoryCache (fst (getCachedContent plainKey brokenCache "report" "revenue" 2000))
    = memoryCache brokenCache /\
  forall key : string,
    key <> generateCacheKey plainKey "report" "revenue" ->
    files (fst (getCachedContent plainKey brokenCache "report" "revenue" 2000)) !! key
    = files brokenCache !! key.
Proof.
  split; [reflexivity|]. split; [reflexivity|]. split; [reflexivity|].
  apply (unusable_file_removed plainKey brokenCache "report" "revenue" Corrupt 2000);
    reflexivity.
Defined.

Lemma read_does_not_protect_oldest_witness :
  head (memoryCache filledCache) = Some (generateCacheKey plainKey "a" "", oldestEntry) /\
  (maxMemorySize filledCache <= List.length (memoryCache filledCache))%nat /\
  generateCacheKey plainKey "fresh" "" <> generateCacheKey plainKey "a" "" /\
  snd (getCachedContent plainKey filledCache "a" "" 2000) = Some oldestEntry /\
  mapGet
    (memoryCache
       (fst (cacheContent plainKey unitSize
               (fst (getCachedContent plainKey filledCache "a" "" 2000))
               "fresh" "" "summary" [] 3000 false false)))
    (generateCacheKey plainKey "a" "") = None.
Proof.
  split; [vm_compute; reflexivity|].
  split; [apply Nat.leb_le; vm_compute; reflexivity|].
  split; [discriminate|].
  apply (read_does_not_protect_oldest plainKey unitSize filledCache "a" "" oldestEntry
           "fresh" "" "summary" [] 2000 3000 false).
  - vm_compute; reflexivity.
  - apply Nat.leb_le; vm_compute; reflexivity.
  - discriminate.
Defined.

Lemma sweep_removes_expired_files_witness :
  indexFile storedOnce = Some (ParsedIndex storedIndex) /\
  memoryCache (clearExpiredCache storedOnce (1001 + day)) = memoryCache storedOnce /\
  indexFile (clearExpiredCache storedOnce (1001 + day)) = indexFile storedOnce /\
  forall key : string,
    files (clearExpiredCache storedOnce (1001 + day)) !! key
    = match storedIndex !! key with
      | Some entry => if expiredEntry entry (1001 + day) then None
                      else files storedOnce !! key
      | None => files storedOnce !! key
      end.
Proof.
  split; [reflexivity|].
  apply (sweep_removes_expired_files storedOnce storedIndex (1001 + day)).
  reflexivity.
Defined.

Lemma sweep_after_store_witness :
  1000 + day <> 0 /\
  files (clearExpiredCache
           (fst (cacheContent plainKey unitSize emptyCache "report" "revenue" "summary" []
                   1000 false false)) (1000 + day))
    !! generateCacheKey plainKey "report" "revenue"
  = (if 1000 + day <? 1000 + day then None
     else Some (Parsed {| content := "summary";
                          metadata := Some {| extra := [];
                                              originalLength := jsLength "report";
                                              query := "revenue";
                                              timestamp := 1000;
                                              expiresAt := Some (1000 + day) |} |})) /\
  mapGet
    (memoryCache
       (clearExpiredCache
          (fst (cacheContent plainKey unitSize emptyCache "report" "revenue" "summary" []
                  1000 false false)) (1000 + day)))
    (generateCacheKey plainKey "report" "revenue")
  = Some {| content := "summary";
            metadata := Some {| extra := [];
                                originalLength := jsLength "report";
                                query := "revenue";
                                timestamp := 1000;
                                expiresAt := Some (1000 + day) |} |}.
Proof.
  split; [discriminate|].
  apply (sweep_after_store plainKey unitSize emptyCache "report" "revenue" "summary" []
           1000 (1000 + day)).
  discriminate.
Defined.

End CacheExtras.

(** * Further properties of the rate limiter *)

Module LimiterExtras.
Import JsString AdaptiveRateLimiter Statements LimiterProperties.

Lemma Qlt_bool_lt (a b : Q) : Qlt_bool a b = true -> (a < b)%Q.
Proof.
  unfold Qlt_bool. destruct (Qle_bool b a) eqn:E; [discriminate|]. intros _.
  apply Qnot_le_lt. intros H. apply Qle_bool_iff in H. congruence.
Qed.

Lemma Qlt_bool_ge (a b : Q) : Qlt_bool a b = false -> (b <= a)%Q.
Proof.
  unfold Qlt_bool. destruct (Qle_bool b a) eqn:E; [|discriminate]. intros _.
  now apply Qle_bool_iff.
Qed.

Lemma multiplier_at_least_half (h : ApiHealth) : (5 # 10 <= getHealthMultiplier h)%Q.
Proof.
  unfold getHealthMultiplier.
  destruct (Qlt_bool (successRate h) (8 # 10)); [apply Q.le_max_l|].
  destruct (Qlt_bool (95 # 100) (successRate h) && (1000 <? totalRequests h)) eqn:Ehigh;
    [|lra].
  apply andb_true_iff in Ehigh as [Ehigh _]. apply Qlt_bool_lt in Ehigh.
  apply Q.min_glb; lra.
Qed.

Lemma limit_floor (h : ApiHealth) (user : User) :
  2 <= limitRequests (limitOf h user) /\ window (limitOf h user) = 60000.
Proof.
  pose proof (multiplier_at_least_half h) as Hlo.
  unfold limitOf.
  destruct (tier user); cbn [baseLimits limitRequests window];
    (split; [|reflexivity]);
    (apply Z.le_trans with (Qfloor (inject_Z 2));
     [rewrite Qfloor_Z; lia | apply Qfloor_resp_le; unfold inject_Z; lra]).
Qed.

(** The health multiplier lies between 0.5 and 1.5 for every snapshot. *)
Theorem healthMultiplier_bounds (h : ApiHealth) :
  (5 # 10 <= getHealthMultiplier h <= 15 # 10)%Q.
Proof.
  unfold getHealthMultiplier.
  destruct (Qlt_bool (successRate h) (8 # 10)) eqn:Elow.
  - apply Qlt_bool_lt in Elow. split.
    + apply Q.le_max_l.
    + apply Q.max_lub; lra.
  - destruct (Qlt_bool (95 # 100) (successRate h) && (1000 <? totalRequests h)) eqn:Ehigh.
    + apply andb_true_iff in Ehigh as [Ehigh _]. apply Qlt_bool_lt in Ehigh. split.
      * apply Q.min_glb; lra.
      * apply Q.le_min_l.
    + split; lra.
Qed.

(** The limit of every user is at least two requests per window, and at
    most 75, whatever the tier and the health. *)
Theorem limit_between_2_and_75 (h : ApiHealth) (user : User) :
  2 <= limitRequests (limitOf h user) <= 75 /\ window (limitOf h user) = 60000.
Proof.
  destruct (limit_floor h user) as [Hlow Hwin].
  split; [|exact Hwin]. split; [exact Hlow|].
  assert (getHealthMultiplier h <= 15 # 10)%Q as Hhi.
  { unfold getHealthMultiplier.
    destruct (Qlt_bool (successRate h) (8 # 10)) eqn:Elow.
    - apply Qlt_bool_lt in Elow. apply Q.max_lub; lra.
    - destruct (Qlt_bool (95 # 100) (successRate h) && (1000 <? totalRequests h));
        [apply Q.le_min_l | lra]. }
  unfold limitOf.
  destruct (tier user); cbn [baseLimits limitRequests];
    (apply Z.le_trans with (Qfloor (inject_Z 75));
     [apply Qfloor_resp_le; unfold inject_Z; lra | rewrite Qfloor_Z; lia]).
Qed.

Lemma recordOn_window (l : Limiter) (userId : string) (user : User) (success : bool)
    (now : Z) :
  exists user' : User,
    userLimits (recordOn l userId user success now) !! userId = Some user' /\
    requests user' = requests user /\
    lastRequest user' = lastRequest user /\
    successCount user' = (successCount user + (if success then 1 else 0))%N /\
    errorCount user' = (errorCount user + (if success then 0 else 1))%N.
Proof.
  rewrite recordOn_users. eexists. split; [reflexivity|].
  destruct (updateUserTier_frame (fst (countOutcome user (apiHealth l) success)))
    as (Hr & Hl & Hs & He).
  destruct (countOutcome_user user (apiHealth l) success) as (Hr' & Hl' & _ & Hs' & He').
  rewrite Hr, Hl, Hs, He, Hr', Hl', Hs', He'. repeat split.
Qed.

(** Once more than 60 seconds have passed since [lastRequest], the next
    check of a known user is allowed, and it leaves the counter at 1. *)
Theorem elapsed_window_allows (l : Limiter) (userId : string) (user : User)
    (now healthNow : Z)
    (Huser : userLimits l !! userId = Some user)
    (Helapsed : 60000 < now - lastRequest user) :
  snd (isRequestAllowed l userId now healthNow)
    = Allowed (limitRequests (limitOf (apiHealth l) user) - 1) /\
  exists user' : User,
    userLimits (fst (isRequestAllowed l userId now healthNow)) !! userId = Some user' /\
    requests user' = 1 /\
    lastRequest user' = now.
Proof.
  pose proof (limit_floor (apiHealth l) user) as [Hlim Hwin].
  unfold isRequestAllowed. rewrite Huser.
  assert (snd (getUserLimit l userId) = limitOf (apiHealth l) user) as ->
    by (unfold getUserLimit; now rewrite Huser).
  rewrite Hwin.
  assert ((60000 <? now - lastRequest user) = true) as -> by (apply Z.ltb_lt; exact Helapsed).
  cbn [requests withWindow].
  assert ((0 <? limitRequests (limitOf (apiHealth l) user)) = true) as ->
    by (apply Z.ltb_lt; lia).
  cbn [fst snd]. split; [reflexivity|].
  destruct (recordOn_window l userId
              (withWindow (withWindow user 0 now) (0 + 1) now) true healthNow)
    as (u' & Hu & Hr & Hl & _).
  exists u'. split; [exact Hu|]. split; [exact Hr | exact Hl].
Qed.

Lemma elapsed_window_allows_witness :
  userLimits (limiterWith "u1" (busyUser 5)) !! "u1" = Some (busyUser 5) /\
  60000 < 70000 - lastRequest (busyUser 5) /\
  snd (isRequestAllowed (limiterWith "u1" (busyUser 5)) "u1" 70000 70000)
    = Allowed (limitRequests (limitOf (apiHealth (limiterWith "u1" (busyUser 5)))
                                (busyUser 5)) - 1) /\
  exists user' : User,
    userLimits (fst (isRequestAllowed (limiterWith "u1" (busyUser 5)) "u1" 70000 70000))
      !! "u1" = Some user' /\
    requests user' = 1 /\
    lastRequest user' = 70000.
Proof.
  split; [reflexivity|]. split; [reflexivity|].
  apply (elapsed_window_allows (limiterWith "u1" (busyUser 5)) "u1" (busyUser 5)
           70000 70000); reflexivity.
Defined.

(** A denial comes only inside the window. The seconds it tells the
    client to wait are never negative, and at most 60 when the clock has not
    gone back behind [lastRequest]; they are 0 when the check comes exactly 60
    seconds after [lastRequest]. The window end it names is [lastRequest]
    plus 60 seconds. *)
Theorem denial_retry_after (l : Limiter) (userId : string) (user : User)
    (now healthNow retryAfter windowEnd : Z)
    (Huser : userLimits l !! userId = Some user)
    (Hdenied : snd (isRequestAllowed l userId now healthNow) = Denied retryAfter windowEnd) :
  now - lastRequest user <= 60000 /\
  retryAfter = ceilSeconds (60000 - (now - lastRequest user)) /\
  0 <= retryAfter /\
  (if lastRequest user <=? now then retryAfter <= 60 else 60 < retryAfter) /\
  windowEnd = lastRequest user + 60000.
Proof.
  pose proof (limit_floor (apiHealth l) user) as [Hlim Hwin].
  unfold isRequestAllowed in Hdenied. rewrite Huser in Hdenied.
  assert (snd (getUserLimit l userId) = limitOf (apiHealth l) user) as Hlimit
    by (unfold getUserLimit; now rewrite Huser).
  rewrite Hlimit, Hwin in Hdenied.
  destruct (60000 <? now - lastRequest user) eqn:E.
  - cbn [requests withWindow] in Hdenied.
    assert ((0 <? limitRequests (limitOf (apiHealth l) user)) = true) as Hpos
      by (apply Z.ltb_lt; lia).
    rewrite Hpos in Hdenied. discriminate.
  - apply Z.ltb_ge in E.
    destruct (requests user <? limitRequests (limitOf (apiHealth l) user));
      [discriminate|].
    cbn [snd] in Hdenied. injection Hdenied as <- <-.
    unfold ceilSeconds. split; [exact E|]. split; [reflexivity|].
    split; [|split; [|reflexivity]].
    + assert ((- (60000 - (now - lastRequest user))) / 1000 <= 0)
        by (apply Z.div_le_upper_bound; lia).
      lia.
    + destruct (lastRequest user <=? now) eqn:Eclock.
      * apply Z.leb_le in Eclock.
        assert (- 60 <= (- (60000 - (now - lastRequest user))) / 1000)
          by (apply Z.div_le_lower_bound; lia).
        lia.
      * apply Z.leb_gt in Eclock.
        assert ((- (60000 - (now - lastRequest user))) / 1000 < - 60)
          by (apply Z.div_lt_upper_bound; lia).
        lia.
Qed.

Lemma denial_retry_after_witness :
  userLimits (limiterWith "u1" (busyUser 5)) !! "u1" = Some (busyUser 5) /\
  snd (isRequestAllowed (limiterWith "u1" (busyUser 5)) "u1" 61000 61000)
    = Denied 0 61000 /\
  61000 - lastRequest (busyUser 5) <= 60000 /\
  0 = ceilSeconds (60000 - (61000 - lastRequest (busyUser 5))) /\
  0 <= 0 /\
  (if lastRequest (busyUser 5) <=? 61000 then 0 <= 60 else 60 < 0) /\
  61000 = lastRequest (busyUser 5) + 60000.
Proof.
  split; [reflexivity|]. split; [reflexivity|].
  apply (denial_retry_after (limiterWith "u1" (busyUser 5)) "u1" (busyUser 5)
           61000 61000 0 61000); reflexivity.
Defined.

(** A check that is allowed counts as a success itself: together with the
    success the request handlers record after serving the request, one served
    request moves [successCount] by two. *)
Theorem served_request_counts_twice (l : Limiter) (userId : string) (user : User)
    (now healthNow later remaining : Z)
    (Huser : userLimits l !! userId = Some user)
    (Hallowed : snd (isRequestAllowed l userId now healthNow) = Allowed remaining) :
  exists user' : User,
    userLimits (recordRequest (fst (isRequestAllowed l userId now healthNow))
                  userId true later) !! userId = Some user' /\
    successCount user' = (successCount user + 2)%N /\
    errorCount user' = errorCount user.
Proof.
  unfold isRequestAllowed in *. rewrite Huser in *.
  set (limit := snd (getUserLimit l userId)) in *.
  set (u := if window limit <? now - lastRequest user
            then withWindow user 0 now else user) in *.
  assert (successCount u = successCount user /\ errorCount u = errorCount user) as [Hs He]
    by (unfold u; destruct (_ <? _); split; reflexivity).
  destruct (requests u <? limitRequests limit); [|discriminate]. cbn [fst].
  destruct (recordOn_window l userId (withWindow u (requests u + 1) now) true healthNow)
    as (u1 & Hu1 & _ & _ & Hs1 & He1).
  cbn [successCount errorCount withWindow] in Hs1, He1.
  unfold recordRequest. rewrite Hu1.
  destruct (recordOn_window (recordOn l userId (withWindow u (requests u + 1) now) true
                               healthNow) userId u1 true later)
    as (u2 & Hu2 & _ & _ & Hs2 & He2).
  exists u2. split; [exact Hu2|]. rewrite Hs2, He2, Hs1, He1, Hs, He. split; lia.
Qed.

Lemma served_request_counts_twice_witness :
  userLimits (limiterWith "u1" (busyUser 1)) !! "u1" = Some (busyUser 1) /\
  snd (isRequestAllowed (limiterWith "u1" (busyUser 1)) "u1" 2000 2000) = Allowed 3 /\
  exists user' : User,
    userLimits (recordRequest (fst (isRequestAllowed (limiterWith "u1" (busyUser 1)) "u1"
                                      2000 2000)) "u1" true 2500) !! "u1" = Some user' /\
    successCount user' = (successCount (busyUser 1) + 2)%N /\
    errorCount user' = errorCount (busyUser 1).
Proof.
  split; [reflexivity|]. split; [reflexivity|].
  apply (served_request_counts_twice (limiterWith "u1" (busyUser 1)) "u1" (busyUser 1)
           2000 2000 2500 3); reflexivity.
Defined.

(** The first contact of an unknown user. The check throws after the
    record was entered; with the failure that the request handlers record in
    their [catch], the user starts with one error and no success. *)
Theorem first_contact_is_an_error (l : Limiter) (userId : string) (now healthNow later : Z)
    (Hnew : userLimits l !! userId = None) :
  snd (isRequestAllowed l userId now healthNow) = Threw /\
  userLimits (recordRequest (fst (isRequestAllowed l userId now healthNow))
                userId false later) !! userId = Some firstContactUser.
Proof.
  unfold isRequestAllowed, getUserLimit. rewrite Hnew. cbn [fst snd].
  split; [reflexivity|].
  unfold recordRequest; cbn [userLimits]. rewrite lookup_insert_eq.
  rewrite recordOn_users. reflexivity.
Qed.

Lemma first_contact_is_an_error_witness :
  userLimits (emptyLimiter 0) !! "u1" = None /\
  snd (isRequestAllowed (emptyLimiter 0) "u1" 1000 1000) = Threw /\
  userLimits (recordRequest (fst (isRequestAllowed (emptyLimiter 0) "u1" 1000 1000))
                "u1" false 1001) !! "u1" = Some firstContactUser.
Proof.
  split; [reflexivity|].
  apply (first_contact_is_an_error (emptyLimiter 0) "u1" 1000 1000 1001). reflexivity.
Defined.

Lemma poor_tests (user : User) :
  poor (successCount user) (errorCount user) = true ->
  (100 <=? Z.of_N (successCount user + errorCount user)) = true /\
  numLt (userSuccessRate user) (7 # 10) = true /\
  numGe (userSuccessRate user) (9 # 10) = false /\
  numGe (userSuccessRate user) (95 # 100) = false.
Proof.
  unfold poor, userSuccessRate. intros H.
  apply andb_true_iff in H as [Htotal Hrate].
  apply N.leb_le in Htotal. apply N.ltb_lt in Hrate.
  destruct (successCount user + errorCount user)%N as [|total] eqn:E; [lia|].
  unfold numLt, numGe, Qlt_bool, Qle_bool; cbn [Qnum Qden].
  split; [apply Z.leb_le; lia|].
  split; [apply negb_true_iff, Z.leb_gt; lia|].
  split; apply Z.leb_gt; lia.
Qed.

(** A user with at least 100 outcomes and fewer than seven successes in
    ten is demoted by the next look at the tier: from [power] to [regular],
    from [regular] to [newUser], and from [enterprise] straight to [newUser]. *)
Theorem poor_performance_demotes (user : User)
    (Hpoor : poor (successCount user) (errorCount user) = true) :
  tier (updateUserTier user) = demoted (tier user).
Proof.
  destruct (poor_tests user Hpoor) as (Htotal & Hlt & Hge9 & Hge95).
  unfold updateUserTier. rewrite Htotal, Hlt, Hge9, Hge95.
  rewrite !andb_false_r. cbn [andb].
  destruct (tier user) eqn:Et; cbn; rewrite ?Et; reflexivity.
Qed.

Lemma poor_performance_demotes_witness :
  poor (successCount failingEnterprise) (errorCount failingEnterprise) = true /\
  tier (updateUserTier failingEnterprise) = demoted (tier failingEnterprise).
Proof.
  split; [reflexivity|].
  apply (poor_performance_demotes failingEnterprise). reflexivity.
Defined.

Lemma recordOn_other (l : Limiter) (userId other : string) (user : User) (success : bool)
    (now : Z) :
  other <> userId ->
  userLimits (recordOn l userId user success now) !! other = userLimits l !! other.
Proof.
  intros Hne. unfold recordOn.
  destruct (countOutcome user (apiHealth l) success) as [u h].
  cbn [userLimits]. apply lookup_insert_ne. congruence.
Qed.

Lemma updateUserTier_below (user : User) :
  tier user <> enterprise -> tier (updateUserTier user) <> enterprise.
Proof.
  intros H. unfold updateUserTier.
  repeat match goal with
         | |- context [if ?b then _ else _] => destruct b
         end; cbn [tier withTier]; congruence.
Qed.

Lemma recordOn_below (l : Limiter) (userId : string) (user : User) (success : bool)
    (now : Z) :
  (forall other : string, belowEnterprise (tierOf l other)) ->
  tier user <> enterprise ->
  forall other : string,
    belowEnterprise (tierOf (recordOn l userId user success now) other).
Proof.
  intros Hall Huser other. unfold tierOf.
  destruct (decide (other = userId)) as [->|Hne].
  - rewrite recordOn_users. cbn.
    destruct (countOutcome_user user (apiHealth l) success) as (_ & _ & Ht & _).
    pose proof (updateUserTier_below (fst (countOutcome user (apiHealth l) success))) as Hb.
    rewrite Ht in Hb. specialize (Hb Huser).
    destruct (tier (updateUserTier _)); try exact I. congruence.
  - rewrite recordOn_other by exact Hne. apply Hall.
Qed.

Lemma known_below (l : Limiter) (userId : string) (user : User) :
  (forall other : string, belowEnterprise (tierOf l other)) ->
  userLimits l !! userId = Some user ->
  tier user <> enterprise.
Proof.
  intros Hall Huser. specialize (Hall userId). unfold tierOf in Hall.
  rewrite Huser in Hall. cbn in Hall. intros E. now rewrite E in Hall.
Qed.

Lemma getUserLimit_below (l : Limiter) (userId : string) :
  (forall other : string, belowEnterprise (tierOf l other)) ->
  forall other : string, belowEnterprise (tierOf (fst (getUserLimit l userId)) other).
Proof.
  intros Hall other. unfold getUserLimit.
  destruct (userLimits l !! userId) eqn:E; cbn [fst]; [apply Hall|].
  unfold tierOf; cbn [userLimits].
  destruct (decide (other = userId)) as [->|Hne].
  - rewrite lookup_insert_eq. exact I.
  - rewrite lookup_insert_ne by congruence. apply Hall.
Qed.

Lemma step_below (l : Limiter) (op : Op) :
  (forall other : string, belowEnterprise (tierOf l other)) ->
  forall other : string, belowEnterprise (tierOf (step l op) other).
Proof.
  intros Hall. destruct op as [userId now healthNow|userId success now|userId|userId];
    cbn [step].
  - unfold isRequestAllowed.
    destruct (userLimits l !! userId) as [user|] eqn:E.
    + pose proof (known_below l userId user Hall E) as Hu.
      set (limit := snd (getUserLimit l userId)).
      set (u := if window limit <? now - lastRequest user
                then withWindow user 0 now else user).
      assert (tier u = tier user) as Hut
        by (unfold u; now destruct (window limit <? now - lastRequest user)).
      destruct (requests u <? limitRequests limit); cbn [fst]; apply recordOn_below;
        try assumption; cbn [tier withWindow]; congruence.
    + cbn [fst]. now apply getUserLimit_below.
  - unfold recordRequest.
    destruct (userLimits l !! userId) as [user|] eqn:E; [|exact Hall].
    apply recordOn_below; [exact Hall | exact (known_below l userId user Hall E)].
  - now apply getUserLimit_below.
  - unfold getUserStats.
    destruct (userLimits l !! userId) as [user|] eqn:E; cbn [fst]; [exact Hall|].
    now apply getUserLimit_below.
Qed.

(** No run of checks, recorded outcomes and queries brings a user to the
    tier [enterprise]: the limiter starts without users, enters every user as
    [newUser], and its tier update only ever sets a tier below [enterprise]. *)
Theorem enterprise_is_never_reached (start : Z) (ops : list Op) (userId : string) :
  belowEnterprise (tierOf (run (emptyLimiter start) ops) userId).
Proof.
  assert (forall l, (forall other : string, belowEnterprise (tierOf l other)) ->
                    forall other : string, belowEnterprise (tierOf (run l ops) other))
    as Hrun.
  { induction ops as [|op ops IH]; intros l Hall; [exact Hall|].
    cbn [run fold_left]. apply IH, step_below, Hall. }
  apply Hrun. intros other. unfold tierOf, emptyLimiter; cbn [userLimits].
  rewrite lookup_empty. exact I.
Qed.

Lemma countOutcome_rate (user : User) (h : ApiHealth) (success : bool) :
  (successRate h == 1)%Q -> (successRate (snd (countOutcome user h success)) == 1)%Q.
Proof. intros H. destruct success; cbn; lra. Qed.

Lemma recordOn_rate (l : Limiter) (userId : string) (user : User) (success : bool)
    (now : Z) :
  (successRate (apiHealth l) == 1)%Q ->
  (successRate (apiHealth (recordOn l userId user success now)) == 1)%Q.
Proof.
  intros H. rewrite recordOn_health. unfold updateApiHealth.
  destruct (_ <? _); [reflexivity|]. now apply countOutcome_rate.
Qed.

Lemma step_rate (l : Limiter) (op : Op) :
  (successRate (apiHealth l) == 1)%Q -> (successRate (apiHealth (step l op)) == 1)%Q.
Proof.
  intros H. destruct op as [userId now healthNow|userId success now|userId|userId];
    cbn [step].
  - unfold isRequestAllowed.
    destruct (userLimits l !! userId) as [user|] eqn:E.
    + destruct (requests _ <? limitRequests _); cbn [fst]; now apply recordOn_rate.
    + unfold getUserLimit. rewrite E. exact H.
  - unfold recordRequest.
    destruct (userLimits l !! userId) as [user|]; [now apply recordOn_rate | exact H].
  - unfold getUserLimit. destruct (userLimits l !! userId); exact H.
  - unfold getUserStats, getUserLimit. destruct (userLimits l !! userId); exact H.
Qed.

(** The health average never leaves 1: a success maps 1 to 1, a failure
    does not touch it, and the hourly reset sets it to 1. So the multiplier is
    never below 1 and never above 1.1, and no run of failures lowers a limit. *)
Theorem health_average_stays_one (start : Z) (ops : list Op) :
  (successRate (apiHealth (run (emptyLimiter start) ops)) == 1)%Q /\
  (1 <= getHealthMultiplier (apiHealth (run (emptyLimiter start) ops)) <= 11 # 10)%Q.
Proof.
  assert (forall l, (successRate (apiHealth l) == 1)%Q ->
                    (successRate (apiHealth (run l ops)) == 1)%Q) as Hrun.
  { induction ops as [|op ops IH]; intros l H; [exact H|].
    cbn [run fold_left]. apply IH, step_rate, H. }
  assert (successRate (apiHealth (run (emptyLimiter start) ops)) == 1)%Q as H
    by (apply Hrun; reflexivity).
  split; [exact H|].
  unfold getHealthMultiplier.
  set (h := apiHealth (run (emptyLimiter start) ops)) in *.
  destruct (Qlt_bool (successRate h) (8 # 10)) eqn:Elow.
  - apply Qlt_bool_lt in Elow. lra.
  - destruct (Qlt_bool (95 # 100) (successRate h) && (1000 <? totalRequests h)).
    + split.
      * apply Q.min_glb; lra.
      * eapply Qle_trans; [apply Q.le_min_r|]. lra.
    + split; lra.
Qed.

Lemma successes_cons (o : bool * Z) (outcomes : list (bool * Z)) :
  successes (o :: outcomes) = ((if fst o then 1 else 0) + successes outcomes)%nat.
Proof. unfold successes. cbn [List.filter]. destruct (fst o); reflexivity. Qed.

Lemma successes_le (outcomes : list (bool * Z)) :
  (successes outcomes <= List.length outcomes)%nat.
Proof. unfold successes. apply (CacheExtras.filter_shorter fst outcomes). Qed.

(** Every recorded outcome of a known user is counted: after a run of
    outcomes the success counter has grown by the number of successes and the
    error counter by the number of failures. *)
Theorem outcomes_all_counted (userId : string) (outcomes : list (bool * Z)) :
  forall (l : Limiter) (user : User),
    userLimits l !! userId = Some user ->
    exists user' : User,
      userLimits (recordAll l userId outcomes) !! userId = Some user' /\
      successCount user' = (successCount user + N.of_nat (successes outcomes))%N /\
      errorCount user'
      = (errorCount user + N.of_nat (List.length outcomes - successes outcomes))%N.
Proof.
  induction outcomes as [|[success now] rest IH]; intros l user Huser.
  - exists user. split; [exact Huser|]. cbn. split; lia.
  - rewrite recordAll_cons. cbn [fst snd].
    assert (recordRequest l userId success now = recordOn l userId user success now)
      as -> by (unfold recordRequest; now rewrite Huser).
    destruct (recordOn_window l userId user success now) as (u1 & Hu1 & _ & _ & Hs1 & He1).
    destruct (IH (recordOn l userId user success now) u1 Hu1) as (u2 & Hu2 & Hs2 & He2).
    exists u2. split; [exact Hu2|].
    rewrite Hs2, He2, Hs1, He1, successes_cons. cbn [fst List.length].
    pose proof (successes_le rest). destruct success; split; lia.
Qed.

Lemma outcomes_all_counted_witness :
  userLimits (limiterWith "u1" freshUser) !! "u1" = Some freshUser /\
  exists user' : User,
    userLimits (recordAll (limiterWith "u1" freshUser) "u1" fortyFiveOfFifty) !! "u1"
      = Some user' /\
    successCount user'
    = (successCount freshUser + N.of_nat (successes fortyFiveOfFifty))%N /\
    errorCount user'
    = (errorCount freshUser
       + N.of_nat (List.length fortyFiveOfFifty - successes fortyFiveOfFifty))%N.
Proof.
  split; [reflexivity|].
  apply (outcomes_all_counted "u1" fortyFiveOfFifty (limiterWith "u1" freshUser) freshUser).
  reflexivity.
Defined.

(** The statistics of a known user leave the limiter as it is and are free
    of [NaN]: the success rate is a fraction between 0 and 1, also before the
    first outcome, and the total is the sum of the two counters. *)
Theorem stats_of_known_user (l : Limiter) (userId : string) (user : User)
    (Huser : userLimits l !! userId = Some user) :
  exists stats : UserStats,
    getUserStats l userId = (l, Some stats) /\
    statsTier stats = tier user /\
    statsTotalRequests stats = Z.of_N (successCount user + errorCount user) /\
    (0 <= statsSuccessRate stats <= 1)%Q.
Proof.
  unfold getUserStats. rewrite Huser. eexists. split; [reflexivity|].
  cbn [statsTier statsTotalRequests statsSuccessRate].
  split; [reflexivity|]. split; [reflexivity|].
  unfold Qle; cbn [Qnum Qden]. rewrite Z2Pos.id by lia. lia.
Qed.

Lemma stats_of_known_user_witness :
  userLimits (limiterWith "u1" freshUser) !! "u1" = Some freshUser /\
  exists stats : UserStats,
    getUserStats (limiterWith "u1" freshUser) "u1"
      = (limiterWith "u1" freshUser, Some stats) /\
    statsTier stats = tier freshUser /\
    statsTotalRequests stats = Z.of_N (successCount freshUser + errorCount freshUser) /\
    (0 <= statsSuccessRate stats <= 1)%Q.
Proof.
  split; [reflexivity|].
  apply (stats_of_known_user (limiterWith "u1" freshUser) "u1" freshUser). reflexivity.
Defined.

(** The statistics of an unknown user are [null], and the query enters the
    user: asked again, the limiter answers with the statistics of a new
    user. *)
Theorem stats_of_unknown_user (l : Limiter) (userId : string)
    (Hnew : userLimits l !! userId = None) :
  snd (getUserStats l userId) = None /\
  exists stats : UserStats,
    snd (getUserStats (fst (getUserStats l userId)) userId) = Some stats /\
    statsTier stats = newUser /\
    statsTotalRequests stats = 0 /\
    nextTierName <$> nextTier stats = Some regular.
Proof.
  unfold getUserStats at 1 3. rewrite Hnew. cbn [fst snd]. split; [reflexivity|].
  unfold getUserLimit. rewrite Hnew. cbn [fst].
  unfold getUserStats; cbn [userLimits]. rewrite lookup_insert_eq.
  eexists. split; [reflexivity|]. repeat split.
Qed.

Lemma stats_of_unknown_user_witness :
  userLimits (emptyLimiter 0) !! "u1" = None /\
  snd (getUserStats (emptyLimiter 0) "u1") = None /\
  exists stats : UserStats,
    snd (getUserStats (fst (getUserStats (emptyLimiter 0) "u1")) "u1") = Some stats /\
    statsTier stats = newUser /\
    statsTotalRequests stats = 0 /\
    nextTierName <$> nextTier stats = Some regular.
Proof.
  split; [reflexivity|].
  apply (stats_of_unknown_user (emptyLimiter 0) "u1"). reflexivity.
Defined.

Lemma countTier_total (entries : list (string * User)) :
  forall distribution : Tier -> Z,
    fold_left countTier entries distribution newUser
    + fold_left countTier entries distribution regular
    + fold_left countTier entries distribution power
    + fold_left countTier entries distribution enterprise
    = distribution newUser + distribution regular + distribution power
      + distribution enterprise + Z.of_nat (List.length entries).
Proof.
  induction entries as [|entry entries IH]; intros distribution; cbn [fold_left List.length].
  - lia.
  - rewrite IH. unfold countTier. destruct (tier (snd entry)); cbn [Tier_eqb]; lia.
Qed.

(** The tier distribution counts every user once: its four numbers add up
    to the number of users. *)
Theorem tier_distribution_counts_users (l : Limiter) :
  getTierDistribution l newUser + getTierDistribution l regular
  + getTierDistribution l power + getTierDistribution l enterprise
  = Z.of_nat (size (userLimits l)).
Proof.
  unfold getTierDistribution. rewrite countTier_total, length_map_to_list. lia.
Qed.

End LimiterExtras.

(** * Further properties of the prompt manager *)

Module PromptExtras.
Import JsString SystemPromptManager Statements PromptProperties.

Lemma trimStart_clean (s : string) : startsClean (trimStart s).
Proof.
  induction s as [|c s IH]; cbn; [exact I|].
  destruct (isSpace c) eqn:E; [exact IH | cbn; exact E].
Qed.

Lemma trimStart_id (s : string) : startsClean s -> trimStart s = s.
Proof. destruct s as [|c s]; cbn; [reflexivity|]. now intros ->. Qed.

Lemma trimEnd_clean (s : string) : startsClean s -> startsClean (trimEnd s).
Proof.
  destruct s as [|c s]; cbn; [exact id|]. intros H. rewrite H.
  destruct (trimEnd s); cbn; exact H.
Qed.

Lemma trimEnd_idem (s : string) : trimEnd (trimEnd s) = trimEnd s.
Proof.
  induction s as [|c s IH]; [reflexivity|].
  cbn [trimEnd]. destruct (trimEnd s) as [|d r] eqn:E.
  - destruct (isSpace c) eqn:Ec; [reflexivity|]. cbn. now rewrite Ec.
  - cbn [trimEnd] in IH |- *. now rewrite IH.
Qed.

Lemma trim_trimmed (s : string) : trimmed (trim s).
Proof.
  unfold trimmed, trim.
  rewrite (trimStart_id (trimEnd (trimStart s)))
    by apply trimEnd_clean, trimStart_clean.
  apply trimEnd_idem.
Qed.

Lemma built_wellFormed (template userText context : string) :
  includes template "{{USER_TEXT}}" = true ->
  trimmed userText -> trimmed context ->
  wellFormed {| baseTemplate := template;
                currentUserText := userText;
                currentRetrievedContext := context;
                lastBuiltPrompt := buildPrompt template userText context |}.
Proof.
  intros Ht Hu Hc. unfold wellFormed; cbn.
  repeat split; try assumption. now right.
Qed.

Lemma setBaseTemplate_wellFormed (m m' : Manager) (template : string) :
  wellFormed m -> setBaseTemplate m template = inr m' -> wellFormed m'.
Proof.
  intros (_ & Hu & Hc & _) H. unfold setBaseTemplate in H.
  destruct (isEmpty template); [discriminate|].
  destruct (includes template "{{USER_TEXT}}") eqn:E; [|discriminate].
  cbn [negb] in H. injection H as <-.
  unfold rebuildPrompt; cbn [fst baseTemplate currentUserText currentRetrievedContext].
  now apply built_wellFormed.
Qed.

Lemma updateUserText_wellFormed (m : Manager) (userText : string) :
  wellFormed m -> wellFormed (updateUserText m userText).
Proof.
  intros (Ht & _ & Hc & _).
  unfold updateUserText, rebuildPrompt;
    cbn [fst baseTemplate currentUserText currentRetrievedContext].
  apply built_wellFormed; try assumption. apply trim_trimmed.
Qed.

Lemma updateRetrievedContext_wellFormed (m : Manager) (context : string) :
  wellFormed m -> wellFormed (updateRetrievedContext m context).
Proof.
  intros (Ht & Hu & _ & _).
  unfold updateRetrievedContext, rebuildPrompt;
    cbn [fst baseTemplate currentUserText currentRetrievedContext].
  apply built_wellFormed; try assumption. apply trim_trimmed.
Qed.

Lemma importTemplate_wellFormed (m : Manager) (d : TemplateData) :
  wellFormed m -> wellFormed (fst (importTemplate m d)).
Proof.
  intros H. unfold importTemplate.
  assert (forall m1, wellFormed m1 ->
            wellFormed
              (if isEmpty (dataRetrievedContext d)
               then (if isEmpty (dataUserText d) then m1
                     else updateUserText m1 (dataUserText d))
               else updateRetrievedContext
                      (if isEmpty (dataUserText d) then m1
                       else updateUserText m1 (dataUserText d))
                      (dataRetrievedContext d))) as Hrest.
  { intros m1 H1.
    assert (wellFormed (if isEmpty (dataUserText d) then m1
                        else updateUserText m1 (dataUserText d))) as H2
      by (destruct (isEmpty (dataUserText d));
          [exact H1 | now apply updateUserText_wellFormed]).
    destruct (isEmpty (dataRetrievedContext d));
      [exact H2 | now apply updateRetrievedContext_wellFormed]. }
  destruct (isEmpty (dataBaseTemplate d)); [now apply Hrest|].
  destruct (setBaseTemplate m (dataBaseTemplate d)) as [err|m1] eqn:E; [exact H|].
  cbn [fst]. apply Hrest. exact (setBaseTemplate_wellFormed m m1 _ H E).
Qed.

Lemma perform_wellFormed (m : Manager) (c : Call) : wellFormed m -> wellFormed (perform m c).
Proof.
  intros H. destruct c as [template|userText|context| | |d]; cbn [perform].
  - destruct (setBaseTemplate m template) as [err|m'] eqn:E; [exact H|].
    exact (setBaseTemplate_wellFormed m m' template H E).
  - now apply updateUserText_wellFormed.
  - now apply updateRetrievedContext_wellFormed.
  - unfold getCurrentPrompt. destruct (isEmpty (lastBuiltPrompt m)); [|exact H].
    destruct H as (Ht & Hu & Hc & _).
    unfold rebuildPrompt; cbn [fst]. now apply built_wellFormed.
  - destruct H as (Ht & _ & _ & _). unfold wellFormed, reset; cbn.
    repeat split; try assumption. now left.
  - now apply importTemplate_wellFormed.
Qed.

Lemma newManager_wellFormed : wellFormed newManager.
Proof.
  unfold wellFormed, newManager; cbn [baseTemplate currentUserText currentRetrievedContext
                                       lastBuiltPrompt].
  split; [vm_compute; reflexivity|]. repeat split. now left.
Qed.

Lemma performAll_wellFormed (calls : list Call) :
  forall m, wellFormed m -> wellFormed (performAll m calls).
Proof.
  induction calls as [|c calls IH]; intros m H; [exact H|].
  cbn [performAll fold_left]. apply IH, perform_wellFormed, H.
Qed.

(** Whatever is called on a new manager, and in whatever order, the
    template keeps the user-text placeholder: a template without it is
    refused, also on import, and the old one stays. Both inputs are stored
    trimmed. *)
Theorem template_keeps_placeholder (calls : list Call) :
  includes (baseTemplate (performAll newManager calls)) "{{USER_TEXT}}" = true /\
  trim (currentUserText (performAll newManager calls))
    = currentUserText (performAll newManager calls) /\
  trim (currentRetrievedContext (performAll newManager calls))
    = currentRetrievedContext (performAll newManager calls).
Proof.
  destruct (performAll_wellFormed calls newManager newManager_wellFormed)
    as (Ht & Hu & Hc & _).
  repeat split; assumption.
Qed.

(** The prompt that [getCurrentPrompt] hands out is never stale: after
    every run of calls it is the text built from the current template, user
    text and context. *)
Theorem current_prompt_is_fresh (calls : list Call) :
  snd (getCurrentPrompt (performAll newManager calls))
  = buildPrompt (baseTemplate (performAll newManager calls))
      (currentUserText (performAll newManager calls))
      (currentRetrievedContext (performAll newManager calls)).
Proof.
  destruct (performAll_wellFormed calls newManager newManager_wellFormed)
    as (_ & _ & _ & Hlast).
  unfold getCurrentPrompt.
  destruct (isEmpty (lastBuiltPrompt (performAll newManager calls))) eqn:E;
    [reflexivity|].
  cbn [snd]. destruct Hlast as [Hlast|Hlast]; [|exact Hlast].
  apply isEmpty_true in Hlast. congruence.
Qed.

(** What [exportTemplate] writes, [importTemplate] reads back: imported
    into a manager that was reset, the data of any manager reached by calls
    gives that manager's template, user text and context, and a prompt built
    from them. *)
Theorem export_import_round_trip (calls : list Call) (target : Manager) :
  importTemplate (reset target) (exportTemplate (performAll newManager calls))
  = ({| baseTemplate := baseTemplate (performAll newManager calls);
        currentUserText := currentUserText (performAll newManager calls);
        currentRetrievedContext := currentRetrievedContext (performAll newManager calls);
        lastBuiltPrompt :=
          buildPrompt (baseTemplate (performAll newManager calls))
            (currentUserText (performAll newManager calls))
            (currentRetrievedContext (performAll newManager calls)) |},
     true).
Proof.
  destruct (performAll_wellFormed calls newManager newManager_wellFormed)
    as (Ht & Hu & Hc & _).
  set (m := performAll newManager calls) in *.
  unfold importTemplate, exportTemplate;
    cbn [dataBaseTemplate dataUserText dataRetrievedContext].
  assert (isEmpty (baseTemplate m) = false) as Hne.
  { destruct (isEmpty (baseTemplate m)) eqn:E; [|reflexivity].
    apply isEmpty_true in E. rewrite E in Ht. discriminate. }
  rewrite Hne. unfold setBaseTemplate. rewrite Hne, Ht. cbn [negb].
  unfold updateRetrievedContext, updateUserText, rebuildPrompt, reset;
    cbn [fst baseTemplate currentUserText currentRetrievedContext lastBuiltPrompt].
  unfold trimmed in Hu, Hc.
  destruct (isEmpty (currentUserText m)) eqn:Eu;
    destruct (isEmpty (currentRetrievedContext m)) eqn:Ec;
    cbn [fst baseTemplate currentUserText currentRetrievedContext lastBuiltPrompt];
    rewrite ?Hu, ?Hc;
    try (apply isEmpty_true in Eu; rewrite Eu);
    try (apply isEmpty_true in Ec; rewrite Ec);
    reflexivity.
Qed.

End PromptExtras.
